(** * Water_Analyzer: descriptive statistics, correlation and lag-window forecasts

    A shallow embedding of the computational core of [Water_Analyzer.py]
    (class [StatisticalAnalyzer]): [calculate_statistics],
    [calculate_correlation] with its helpers [interpret_correlation],
    [get_correlation_interpretation] and [estimate_p_value], and
    [open_forecast_plot] with its three entry points.

    Numbers.  Every finite float64 is a rational, so the cells of the
    numeric column are rationals ([Q]) and a missing cell (NaN) is [None].
    Arithmetic is exact: rounding is not modelled.  Results that go through
    a square root, or that numpy may return as NaN or infinity, live in
    [float], the reals extended with NaN and the two infinities.

    Library calls (pandas, numpy, scikit-learn) are modelled by their
    documented behaviour; the learning algorithms themselves are parameters
    of the forecast section. *)

From Stdlib Require Import List String DecimalString Bool Arith ZArith.
From Stdlib Require Import QArith Qround Qabs Qreals.
From Stdlib Require Import Reals Lra Lia.
From Stdlib Require Lqa.
Import ListNotations.

Local Open Scope string_scope.

(* ================================================================== *)
(** * Python exceptions and the result of a [try] body *)
(* ================================================================== *)

Module Py.

Inductive exn :=
| KeyError (key : string)
| ValueError (msg : string)
| TypeError (msg : string).

(** [str(e)]: a [KeyError] prints the repr of its key. *)
Definition str (e : exn) : string :=
  match e with
  | KeyError key => "'" ++ key ++ "'"
  | ValueError msg => msg
  | TypeError msg => msg
  end.

(** A computation that returns a value or raises. *)
Definition result (A : Type) : Type := (exn + A)%type.

Definition ret {A} (a : A) : result A := inr a.
Definition raise {A} (e : exn) : result A := inl e.
Definition bind {A B} (c : result A) (k : A -> result B) : result B :=
  match c with
  | inl e => inl e
  | inr a => k a
  end.

End Py.

Import Py.

Declare Scope py_scope.
Delimit Scope py_scope with py.
Notation "x <- c ;; k" := (bind c (fun x => k))
  (at level 61, c at next level, right associativity) : py_scope.

(* ================================================================== *)
(** * numpy float64 values, idealised *)
(* ================================================================== *)

Module NumPy.

Local Open Scope R_scope.

(** The reals with NaN and the infinities; the sign of zero is dropped
    (a zero divisor counts as [+0.0], which is what [1 - r ** 2] and a
    standard deviation produce). *)
Inductive float :=
| NaN
| PInf
| NInf
| Fin (x : R).

Definition Rltb (x y : R) : bool := if Rlt_dec x y then true else false.
Definition Rleb (x y : R) : bool := if Rle_dec x y then true else false.
Definition Reqb (x y : R) : bool := if Req_dec_T x y then true else false.

Definition fneg (a : float) : float :=
  match a with
  | NaN => NaN
  | PInf => NInf
  | NInf => PInf
  | Fin x => Fin (- x)
  end.

(** [abs(a)] *)
Definition fabs (a : float) : float :=
  match a with
  | NaN => NaN
  | PInf | NInf => PInf
  | Fin x => Fin (Rabs x)
  end.

(** [np.sqrt(a)]: NaN on a negative argument. *)
Definition fsqrt (a : float) : float :=
  match a with
  | NaN | NInf => NaN
  | PInf => PInf
  | Fin x => if Rltb x 0 then NaN else Fin (sqrt x)
  end.

(** An infinity [i] scaled by the sign of the finite [x]; [0 * inf] and
    [0 / 0] are NaN. *)
Definition signed (x : R) (i : float) : float :=
  if Rltb 0 x then i else if Rltb x 0 then fneg i else NaN.

Definition fmul (a b : float) : float :=
  match a, b with
  | NaN, _ | _, NaN => NaN
  | Fin x, Fin y => Fin (x * y)
  | Fin x, i => signed x i
  | i, Fin y => signed y i
  | PInf, PInf | NInf, NInf => PInf
  | PInf, NInf | NInf, PInf => NInf
  end.

Definition fsub (a b : float) : float :=
  match a, b with
  | NaN, _ | _, NaN => NaN
  | Fin x, Fin y => Fin (x - y)
  | Fin _, i => fneg i
  | PInf, PInf | NInf, NInf => NaN
  | i, _ => i
  end.

(** numpy division: a finite value over zero is an infinity (or NaN for
    [0 / 0]) and raises nothing. *)
Definition fdiv (a b : float) : float :=
  match a, b with
  | NaN, _ | _, NaN => NaN
  | Fin x, Fin y => if Reqb y 0 then signed x PInf else Fin (x / y)
  | Fin _, _ => Fin 0
  | i, Fin y => if Rltb y 0 then fneg i else i
  | _, _ => NaN
  end.

(** Comparisons: every ordered comparison with NaN is [False], and
    [NaN != x] is [True]. *)
Definition flt (a b : float) : bool :=
  match a, b with
  | NaN, _ | _, NaN => false
  | Fin x, Fin y => Rltb x y
  | _, NInf => false
  | NInf, _ => true
  | PInf, _ => false
  | _, PInf => true
  end.

Definition fle (a b : float) : bool :=
  match a, b with
  | NaN, _ | _, NaN => false
  | Fin x, Fin y => Rleb x y
  | NInf, _ => true
  | _, PInf => true
  | _, _ => false
  end.

Definition feq (a b : float) : bool :=
  match a, b with
  | Fin x, Fin y => Reqb x y
  | PInf, PInf | NInf, NInf => true
  | _, _ => false
  end.

Definition fgt (a b : float) : bool := flt b a.
Definition fge (a b : float) : bool := fle b a.
Definition fne (a b : float) : bool := negb (feq a b).

(** [np.clip(a, -1, 1)] *)
Definition fclip (a : float) : float :=
  match a with
  | NaN => NaN
  | PInf => Fin 1
  | NInf => Fin (-1)
  | Fin x => Fin (Rmax (-1) (Rmin x 1))
  end.

Definition of_Q (q : Q) : float := Fin (Q2R q).
Definition of_Z (z : Z) : float := Fin (IZR z).

End NumPy.

Import NumPy.

(* ================================================================== *)
(** * Correlation labels: [interpret_correlation], [estimate_p_value] *)
(* ================================================================== *)

(** [interpret_correlation(r)] *)
Definition interpret_correlation (r : float) : string :=
  let r_abs := fabs r in
  if fge r_abs (Fin 0.9) then "Очень сильная"
  else if fge r_abs (Fin 0.7) then "Сильная"
  else if fge r_abs (Fin 0.5) then "Умеренная"
  else if fge r_abs (Fin 0.3) then "Слабая"
  else "Очень слабая или отсутствует".

(** [get_correlation_interpretation(r)] *)
Definition get_correlation_interpretation (r : float) : string :=
  let r_abs := fabs r in
  if fge r_abs (Fin 0.9) then "Практически линейная зависимость"
  else if fge r_abs (Fin 0.7) then "Сильная статистическая зависимость"
  else if fge r_abs (Fin 0.5) then "Заметная зависимость"
  else if fge r_abs (Fin 0.3) then "Слабая зависимость"
  else if fge r_abs (Fin 0.1) then "Очень слабая зависимость"
  else "Нет статистически значимой связи".

(** The [t_stat] of [estimate_p_value]:
    [abs(r) * np.sqrt((n - 2) / (1 - r ** 2)) if r != 1 else float('inf')].
    [r] is the numpy float64 that [Series.corr] returns, so the division
    follows numpy and does not raise. *)
Definition t_stat (r : float) (n : Z) : float :=
  if fne r (Fin 1)
  then fmul (fabs r) (fsqrt (fdiv (of_Z (n - 2)) (fsub (Fin 1) (fmul r r))))
  else PInf.

(** [estimate_p_value(r, n)] *)
Definition estimate_p_value (r : float) (n : Z) : string :=
  if (n <=? 2)%Z then "Недостаточно данных"
  else
    let t_stat := t_stat r n in
    if fgt t_stat (Fin 3.5) then "< 0.001 (высоко значимо)"
    else if fgt t_stat (Fin 2.6) then "< 0.01 (значимо)"
    else if fgt t_stat (Fin 1.96) then "< 0.05 (умеренно значимо)"
    else "> 0.05 (не значимо)".

(** ** The significance rule in the words of the specification *)

Inductive significance :=
| HighlySignificant        (* "highly significant (<0.001)" *)
| Significant              (* "significant (<0.01)" *)
| ModeratelySignificant    (* "moderately significant (<0.05)" *)
| NotSignificant.          (* "not significant (>0.05)" *)

(** The text the program shows for each bucket. *)
Definition significance_text (s : significance) : string :=
  match s with
  | HighlySignificant => "< 0.001 (высоко значимо)"
  | Significant => "< 0.01 (значимо)"
  | ModeratelySignificant => "< 0.05 (умеренно значимо)"
  | NotSignificant => "> 0.05 (не значимо)"
  end.

(** [t = |r| * sqrt((n-2)/(1-r²))], infinite when [r] is [1] or [-1]. *)
Definition t_stat_spec (r : float) (n : Z) : float :=
  if feq r (Fin 1) || feq r (Fin (-1)) then PInf
  else fmul (fabs r) (fsqrt (fdiv (of_Z (n - 2)) (fsub (Fin 1) (fmul r r)))).

Definition significance_spec (t : float) : significance :=
  if fgt t (Fin 3.5) then HighlySignificant
  else if fgt t (Fin 2.6) then Significant
  else if fgt t (Fin 1.96) then ModeratelySignificant
  else NotSignificant.

(* ================================================================== *)
(** * The dataset *)
(* ================================================================== *)

(** One record of the loaded table.  [load_file] names the three columns
    "Время", "Активность" and "Объем воды (л)", parses the first as
    datetimes and coerces the third to float64 (an unconvertible entry
    becomes NaN). *)
Record Row := {
  time : Z;                   (* "Время": datetime64, nanoseconds *)
  activity : option string;   (* "Активность": text *)
  volume : option Q           (* "Объем воды (л)": float64, None = NaN *)
}.

Definition DataFrame := list Row.

Definition columns : list string := ["Время"; "Активность"; "Объем воды (л)"].

(** A column with its dtype. *)
Inductive Series :=
| Datetime64 (cells : list Z)
| Object (cells : list (option string))
| Float64 (cells : list (option Q)).

(** [df[col]] *)
Definition getitem (df : DataFrame) (col : string) : result Series :=
  if col =? "Время" then ret (Datetime64 (map time df))
  else if col =? "Активность" then ret (Object (map activity df))
  else if col =? "Объем воды (л)" then ret (Float64 (map volume df))
  else raise (KeyError col).

Definition is_some {A} (o : option A) : bool :=
  match o with Some _ => true | None => false end.

Definition len (s : Series) : nat :=
  match s with
  | Datetime64 l => List.length l
  | Object l => List.length l
  | Float64 l => List.length l
  end.

(** [s.notna()] *)
Definition notna (s : Series) : list bool :=
  match s with
  | Datetime64 l => map (fun _ => true) l
  | Object l => map is_some l
  | Float64 l => map is_some l
  end.

(** [m1 & m2] on boolean masks of one index *)
Fixpoint mask_and (m1 m2 : list bool) : list bool :=
  match m1, m2 with
  | a :: m1', b :: m2' => (a && b) :: mask_and m1' m2'
  | _, _ => []
  end.

(** Boolean indexing [l[mask]] *)
Fixpoint select {A} (l : list A) (mask : list bool) : list A :=
  match l, mask with
  | x :: l', m :: mask' => if m then x :: select l' mask' else select l' mask'
  | _, _ => []
  end.

Definition select_series (s : Series) (mask : list bool) : Series :=
  match s with
  | Datetime64 l => Datetime64 (select l mask)
  | Object l => Object (select l mask)
  | Float64 l => Float64 (select l mask)
  end.

(** [s.dropna()] *)
Definition dropna (s : Series) : Series := select_series s (notna s).

(** [pd.api.types.is_numeric_dtype(s)] *)
Definition is_numeric_dtype (s : Series) : bool :=
  match s with Float64 _ => true | _ => false end.

(** [pd.to_numeric(pd.to_datetime(df['Время']))]: the datetimes viewed as
    their integer nanosecond counts. *)
Definition datetime_to_numeric (df : DataFrame) : Series :=
  Float64 (map (fun r => Some (inject_Z (time r))) df).

(** The present cells of a float64 column. *)
Fixpoint present (l : list (option Q)) : list Q :=
  match l with
  | [] => []
  | Some x :: l' => x :: present l'
  | None :: l' => present l'
  end.

(* ================================================================== *)
(** * Sums and means over rationals *)
(* ================================================================== *)

Definition qsum (l : list Q) : Q := fold_right Qplus 0 l.

Definition qlen (l : list Q) : Q := inject_Z (Z.of_nat (List.length l)).

(** [data.mean()] *)
Definition qmean (l : list Q) : Q := qsum l / qlen l.

(** Sum of products of deviations, [sum((x - mx) * (y - my))]. *)
Definition codev (ps : list (Q * Q)) (mx my : Q) : Q :=
  qsum (map (fun p => (fst p - mx) * (snd p - my)) ps).

(* ================================================================== *)
(** * [Series.corr]: Pearson's r *)
(* ================================================================== *)

(** The pairs with both members present ([nancorr] drops the others). *)
Fixpoint valid_pairs (a b : list (option Q)) : list (Q * Q) :=
  match a, b with
  | Some x :: a', Some y :: b' => (x, y) :: valid_pairs a' b'
  | _ :: a', _ :: b' => valid_pairs a' b'
  | _, _ => []
  end.

(** [np.corrcoef(x, y)[0, 1]]: covariance matrix with [n - 1] in the
    denominator, divided by the two standard deviations and clipped to
    [-1, 1]; NaN when a deviation is zero. *)
Definition pearson (ps : list (Q * Q)) : float :=
  let n := List.length ps in
  if (n <? 2)%nat then NaN
  else
    let mx := qmean (map fst ps) in
    let my := qmean (map snd ps) in
    let fact := inject_Z (Z.of_nat n - 1) in
    let cxy := codev ps mx my / fact in
    let cxx := codev (map (fun p => (fst p, fst p)) ps) mx mx / fact in
    let cyy := codev (map (fun p => (snd p, snd p)) ps) my my / fact in
    fclip (fdiv (fdiv (of_Q cxy) (fsqrt (of_Q cxx))) (fsqrt (of_Q cyy))).

(** [s.to_numpy(dtype=float)]: text does not convert. *)
Definition to_float_array (s : Series) : result (list (option Q)) :=
  match s with
  | Float64 l => ret l
  | Object l =>
      match find is_some l with
      | Some (Some txt) =>
          raise (ValueError ("could not convert string to float: '" ++ txt ++ "'"))
      | _ => ret (map (fun _ => None) l)
      end
  | Datetime64 _ =>
      raise (TypeError "float() argument must be a string or a real number, not 'Timestamp'")
  end.

(** [a.corr(b)] *)
Definition corr (a b : Series) : result float :=
  (x <- to_float_array a ;;
   y <- to_float_array b ;;
   ret (match valid_pairs x y with
        | [] => NaN
        | ps => pearson ps
        end))%py.

(* ================================================================== *)
(** * [calculate_correlation] *)
(* ================================================================== *)

Record CorrelationRecord := {
  corr_col1 : string;          (* 'Столбец 1' *)
  corr_col2 : string;          (* 'Столбец 2' *)
  corr_r : float;              (* 'Коэффициент корреляции Пирсона' *)
  corr_strength : string;      (* 'Сила связи' *)
  corr_interpretation : string;(* 'Интерпретация' *)
  corr_n : nat;                (* 'Количество пар значений' *)
  corr_p : string              (* 'p-значение (приблизительно)' *)
}.

(** The returned dict: [{'Ошибка': msg}] or the full record. *)
Inductive CorrelationResult :=
| ErrorRecord (msg : string)
| Computed (rec : CorrelationRecord).

(** The body of the [try] block. *)
Definition calculate_correlation_try (df : DataFrame) (col1 col2 : string)
  : result CorrelationResult :=
  (if (col1 =? "") || (col2 =? "")
   then ret (ErrorRecord "Не выбраны столбцы для анализа")
   else
     data1 <- (if col1 =? "Время"
               then ret (datetime_to_numeric df)
               else getitem df col1) ;;
     data2 <- (if col2 =? "Время"
               then ret (datetime_to_numeric df)
               else getitem df col2) ;;
     let mask := mask_and (notna data1) (notna data2) in
     let data1_clean := select_series data1 mask in
     let data2_clean := select_series data2 mask in
     if (len data1_clean <? 2)%nat
     then ret (ErrorRecord "Недостаточно данных для расчета")
     else
       correlation <- corr data1_clean data2_clean ;;
       let strength := interpret_correlation correlation in
       let interpretation := get_correlation_interpretation correlation in
       ret (Computed {|
         corr_col1 := col1;
         corr_col2 := col2;
         corr_r := correlation;
         corr_strength := strength;
         corr_interpretation := interpretation;
         corr_n := len data1_clean;
         corr_p := estimate_p_value correlation (Z.of_nat (len data1_clean))
       |}))%py.

(** [calculate_correlation(col1, col2)]: [except Exception as e] turns
    whatever the body raises into [{'Ошибка': str(e)}]. *)
Definition calculate_correlation (df : DataFrame) (col1 col2 : string)
  : CorrelationResult :=
  match calculate_correlation_try df col1 col2 with
  | inr res => res
  | inl e => ErrorRecord (str e)
  end.

(* ================================================================== *)
(** * pandas reductions used by [calculate_statistics] *)
(* ================================================================== *)

Module Stats.

Local Open Scope Q_scope.

Fixpoint insert (x : Q) (l : list Q) : list Q :=
  match l with
  | [] => [x]
  | y :: l' => if Qle_bool x y then x :: l else y :: insert x l'
  end.

(** Ascending order. *)
Definition sort (l : list Q) : list Q := fold_right insert [] l.

(** [data.min()], [data.max()] *)
Definition qmin (l : list Q) : Q :=
  match l with
  | [] => 0
  | x :: l' => fold_left (fun m y => if Qle_bool y m then y else m) l' x
  end.

Definition qmax (l : list Q) : Q :=
  match l with
  | [] => 0
  | x :: l' => fold_left (fun m y => if Qle_bool m y then y else m) l' x
  end.

(** [data.median()]: the middle of the sorted data, the mean of the two
    middle values for an even length. *)
Definition median (l : list Q) : Q :=
  let s := sort l in
  let n := List.length l in
  if Nat.even n
  then (nth (n / 2 - 1) s 0 + nth (n / 2) s 0) / 2
  else nth (n / 2) s 0.

(** [data.quantile(q)], linear interpolation between the two order
    statistics around position [q * (n - 1)]. *)
Definition quantile (l : list Q) (q : Q) : Q :=
  let s := sort l in
  let n := List.length l in
  let pos := q * inject_Z (Z.of_nat n - 1) in
  let lo := Z.to_nat (Qfloor pos) in
  let hi := Nat.min (lo + 1) (n - 1) in
  let frac := pos - inject_Z (Qfloor pos) in
  nth lo s 0 + (nth hi s 0 - nth lo s 0) * frac.

Definition occurrences (l : list Q) (x : Q) : nat :=
  List.length (filter (Qeq_bool x) l).

Fixpoint distinct (sorted : list Q) : list Q :=
  match sorted with
  | [] => []
  | x :: rest =>
      match rest with
      | [] => [x]
      | y :: _ => if Qeq_bool x y then distinct rest else x :: distinct rest
      end
  end.

(** [data.mode()]: the most frequent values, in ascending order. *)
Definition mode (l : list Q) : list Q :=
  let values := distinct (sort l) in
  let best := fold_right Nat.max 0%nat (map (occurrences l) values) in
  filter (fun v => (occurrences l v =? best)%nat) values.

(** Sum of the [k]-th powers of the deviations from the mean. *)
Definition moment (l : list Q) (k : Z) : Q :=
  qsum (map (fun x => (x - qmean l) ^ k) l).

(** [data.var(ddof)]: NaN when [n - ddof <= 0]. *)
Definition var (l : list Q) (ddof : nat) : float :=
  let d := (Z.of_nat (List.length l) - Z.of_nat ddof)%Z in
  if (d <=? 0)%Z then NaN else of_Q (moment l 2 / inject_Z d).

(** [data.std(ddof)] *)
Definition std (l : list Q) (ddof : nat) : float := fsqrt (var l ddof).

(** [data.skew()]: adjusted Fisher-Pearson coefficient. *)
Definition skew (l : list Q) : float :=
  let count := Z.of_nat (List.length l) in
  if (count <? 3)%Z then NaN
  else
    let m2 := moment l 2 in
    let m3 := moment l 3 in
    if Qeq_bool m2 0 then Fin 0
    else fmul (fdiv (fmul (of_Z count) (fsqrt (of_Z (count - 1)))) (of_Z (count - 2)))
              (fdiv (of_Q m3) (fmul (of_Q m2) (fsqrt (of_Q m2)))).

(** [data.kurtosis()]: excess kurtosis, bias-corrected. *)
Definition kurtosis (l : list Q) : float :=
  let count := Z.of_nat (List.length l) in
  if (count <? 4)%Z then NaN
  else
    let m2 := moment l 2 in
    let m4 := moment l 4 in
    let adj := inject_Z (3 * (count - 1) ^ 2) / inject_Z ((count - 2) * (count - 3)) in
    let numerator := inject_Z (count * (count + 1) * (count - 1)) * m4 in
    let denominator := inject_Z ((count - 2) * (count - 3)) * m2 ^ 2 in
    if Qeq_bool denominator 0 then Fin 0
    else of_Q (numerator / denominator - adj).

End Stats.

(* ================================================================== *)
(** * [calculate_statistics] *)
(* ================================================================== *)

(** The returned dict; an [option] field is a key that is set only under
    a condition. *)
Record StatSummary := {
  stat_count : nat;                 (* 'Количество элементов' *)
  stat_median : Q;                  (* 'Медиана' *)
  stat_mean : Q;                    (* 'Среднее значение' *)
  stat_min : Q;                     (* 'Минимальное значение' *)
  stat_max : Q;                     (* 'Максимальное значение' *)
  stat_sum : Q;                     (* 'Сумма' *)
  stat_range : Q;                   (* 'Диапазон' *)
  stat_mode : option Q;             (* 'Мода' *)
  stat_more_modes : option (list Q);(* 'Дополнительные моды' *)
  stat_q1 : Q;                      (* 'Q1 (0.25)' *)
  stat_q2 : Q;                      (* 'Q2 (медиана)' *)
  stat_q3 : Q;                      (* 'Q3 (0.75)' *)
  stat_iqr : Q;                     (* 'IQR' *)
  stat_outlier_lower : Q;           (* 'Нижняя граница выбросов (Q1 - 1.5*IQR)' *)
  stat_outlier_upper : Q;           (* 'Верхняя граница выбросов (Q3 + 1.5*IQR)' *)
  stat_mad_mean : Q;                (* 'Среднее абсолютное отклонение (MAD)' *)
  stat_mad_median : Q;              (* 'Медианное абсолютное отклонение' *)
  stat_variance : float;            (* 'Дисперсия' *)
  stat_std : float;                 (* 'Стандартное отклонение' *)
  stat_shape : option (float * float * string);
    (* 'Асимметрия (Skewness)', 'Эксцесс (Kurtosis)', 'Интерпретация асимметрии' *)
  stat_cv : option float            (* 'Коэффициент вариации (%)' *)
}.

Definition skew_interpretation (skew : float) : string :=
  if flt (fabs skew) (Fin 0.5) then "Симметричное распределение"
  else if fle (Fin 0.5) (fabs skew) && flt (fabs skew) (Fin 1)
       then "Умеренная асимметрия"
       else "Сильная асимметрия".

(** The statistics of the cleaned, non-empty data. *)
Definition summarize (data : list Q) : StatSummary :=
  let mean := qmean data in
  let median := Stats.median data in
  let mode_values := Stats.mode data in
  let q1 := Stats.quantile data (25 # 100) in
  let q2 := Stats.quantile data (50 # 100) in
  let q3 := Stats.quantile data (75 # 100) in
  let iqr := (q3 - q1)%Q in
  let std := Stats.std data 1 in
  {| stat_count := List.length data;
     stat_median := median;
     stat_mean := mean;
     stat_min := Stats.qmin data;
     stat_max := Stats.qmax data;
     stat_sum := qsum data;
     stat_range := (Stats.qmax data - Stats.qmin data)%Q;
     stat_mode := hd_error mode_values;
     stat_more_modes :=
       if (1 <? List.length mode_values)%nat then Some (tl mode_values) else None;
     stat_q1 := q1;
     stat_q2 := q2;
     stat_q3 := q3;
     stat_iqr := iqr;
     stat_outlier_lower := (q1 - (15 # 10) * iqr)%Q;
     stat_outlier_upper := (q3 + (15 # 10) * iqr)%Q;
     stat_mad_mean := qmean (map (fun x => Qabs (x - mean)) data);
     stat_mad_median := Stats.median (map (fun x => Qabs (x - median)) data);
     stat_variance := Stats.var data 1;
     stat_std := std;
     stat_shape :=
       if (2 <? List.length data)%nat
       then Some (Stats.skew data, Stats.kurtosis data,
                  skew_interpretation (Stats.skew data))
       else None;
     stat_cv :=
       if negb (Qeq_bool mean 0)
       then Some (fmul (fdiv std (of_Q mean)) (Fin 100))
       else None |}.

(** The body of the [try] block. *)
Definition calculate_statistics_try (df : DataFrame) (column : string)
  : result StatSummary :=
  (if negb (existsb (String.eqb column) columns)
   then raise (ValueError ("Столбец '" ++ column ++ "' не найден в данных"))
   else
     col <- getitem df column ;;
     let data := dropna col in
     if (len data =? 0)%nat
     then raise (ValueError ("Столбец '" ++ column ++ "' не содержит данных"))
     else if negb (is_numeric_dtype data)
     then raise (ValueError ("Столбец '" ++ column ++ "' не является числовым."))
     else
       let data_numeric :=
         match data with Float64 cells => present cells | _ => [] end in
       if (List.length data_numeric =? 0)%nat
       then raise (ValueError
              ("Не удалось преобразовать столбец '" ++ column ++ "' в числовой формат"))
       else ret (summarize data_numeric))%py.

(** [calculate_statistics(column)]: every failure is re-raised as a
    [ValueError] with a prefixed message. *)
Definition calculate_statistics (df : DataFrame) (column : string)
  : result StatSummary :=
  match calculate_statistics_try df column with
  | inr stats => ret stats
  | inl e => raise (ValueError ("Ошибка при расчете статистики: " ++ str e))
  end.

(* ================================================================== *)
(** * Lag features, chronological split and accuracy metrics *)
(* ================================================================== *)

Definition matrix := list (list Q).

(** [data[i:j]] *)
Definition slice (data : list Q) (i j : nat) : list Q :=
  firstn (j - i) (skipn i data).

(** The loop of [open_forecast_plot]:
    [for i in range(len(data) - lag):
       X.append(data[i:i + lag]); y.append(data[i + lag])]
    run over the remaining indices with the two accumulators. *)
Fixpoint lag_loop (data : list Q) (lag : nat) (range : list nat)
  (X : matrix) (y : list Q) : matrix * list Q :=
  match range with
  | [] => (X, y)
  | i :: rest =>
      lag_loop data lag rest
        (X ++ [slice data i (i + lag)])%list
        (y ++ [nth (i + lag) data 0%Q])%list
  end.

Definition lag_features (data : list Q) (lag : nat) : matrix * list Q :=
  lag_loop data lag (seq 0 (List.length data - lag)) [] [].

Definition show_nat (n : nat) : string := NilZero.string_of_uint (Nat.to_uint n).

(** [train_test_split(X, y, test_size=0.2, random_state=42, shuffle=False)]:
    [n_test = ceil(0.2 * n_samples)], [n_train = n_samples - n_test], the
    first [n_train] rows are the training set and the next [n_test] rows the
    test set; an empty training set is a [ValueError]. *)
Definition train_test_split {A B} (X : list A) (y : list B)
  : result (list A * list A * list B * list B) :=
  let n_samples := List.length X in
  let n_test := Z.to_nat (Qceiling ((2 # 10) * inject_Z (Z.of_nat n_samples))) in
  let n_train := (n_samples - n_test)%nat in
  if (n_train =? 0)%nat
  then raise (ValueError
         ("With n_samples=" ++ show_nat n_samples ++
          ", test_size=0.2 and train_size=None, the resulting train set will be empty. Adjust any of the aforementioned parameters."))
  else ret (firstn n_train X, firstn n_test (skipn n_train X),
            firstn n_train y, firstn n_test (skipn n_train y)).

Fixpoint residuals (y_true y_pred : list Q) : list Q :=
  match y_true, y_pred with
  | a :: y_true', b :: y_pred' => (a - b)%Q :: residuals y_true' y_pred'
  | _, _ => []
  end.

(** [mean_absolute_error(y_true, y_pred)] *)
Definition mean_absolute_error (y_true y_pred : list Q) : Q :=
  qmean (map Qabs (residuals y_true y_pred)).

(** [mean_squared_error(y_true, y_pred)] *)
Definition mean_squared_error (y_true y_pred : list Q) : Q :=
  qmean (map (fun d => d * d)%Q (residuals y_true y_pred)).

(** Residual and total sums of squares. *)
Definition ss_res (y_true y_pred : list Q) : Q :=
  qsum (map (fun d => d * d)%Q (residuals y_true y_pred)).

Definition ss_tot (y_true : list Q) : Q :=
  qsum (map (fun v => (v - qmean y_true) * (v - qmean y_true))%Q y_true).

(** [r2_score(y_true, y_pred)]: NaN below two samples; with a zero total
    sum of squares the score is 1.0 for a perfect prediction and 0.0
    otherwise. *)
Definition r2_score (y_true y_pred : list Q) : float :=
  if (List.length y_pred <? 2)%nat then NaN
  else
    let numerator := ss_res y_true y_pred in
    let denominator := ss_tot y_true in
    if Qeq_bool denominator 0
    then (if Qeq_bool numerator 0 then Fin 1 else Fin 0)
    else of_Q (1 - numerator / denominator).

(** The values handed to [plot_forecast]. *)
Record ForecastRun := {
  run_model_name : string;
  run_column : string;
  run_lag : nat;
  run_y_test : list Q;
  run_y_pred : list Q;
  run_mae : Q;
  run_rmse : float;
  run_r2 : float
}.

(** What the user gets from a forecast button. *)
Inductive Outcome :=
| Warning (msg : string)      (* [QMessageBox.warning], then [return] *)
| Critical (msg : string)     (* the [except] branch: [QMessageBox.critical] *)
| Plotted (run : ForecastRun).

(** [validate_numeric_column(column_name, action_name)]: the warning it
    shows, or [None] when it returns [True]. *)
Definition validate_numeric_column (df : DataFrame) (column_name action_name : string)
  : option string :=
  match getitem df column_name with
  | inl _ => Some ("Столбец '" ++ column_name ++ "' не найден")
  | inr col =>
      if negb (is_numeric_dtype col)
      then Some ("Для " ++ action_name ++ " выберите числовой столбец")
      else if (len (dropna col) =? 0)%nat
      then Some ("Столбец '" ++ column_name ++ "' не содержит данных")
      else None
  end.

(** [df[column].dropna().values] of a numeric column. *)
Definition column_values (df : DataFrame) (column : string) : result (list Q) :=
  (col <- getitem df column ;;
   ret (match dropna col with Float64 cells => present cells | _ => [] end))%py.

(* ================================================================== *)
(** * [open_forecast_plot] and the three forecast buttons *)
(* ================================================================== *)

Section Forecast.

(** The state of numpy's global random generator, and the generator
    [np.random.RandomState(seed)]. *)
Variable rng : Type.
Variable RandomState : Z -> rng.

(** A fitted model predicts one value per feature row. *)
Definition predictor := list Q -> Q.

(** The learning algorithms of scikit-learn.  Least squares draws no
    random numbers; growing a tree or a forest of [n] trees draws from
    the generator it is given and leaves it advanced. *)
Variable least_squares : matrix -> list Q -> result predictor.
Variable grow_tree : rng -> matrix -> list Q -> result predictor * rng.
Variable grow_forest : nat -> rng -> matrix -> list Q -> result predictor * rng.

(** The estimator objects the buttons construct. *)
Inductive Estimator :=
| LinearRegression
| RandomForestRegressor (n_estimators : nat) (random_state : option Z)
| DecisionTreeRegressor (random_state : option Z).

(** [model.fit(X, y)].  An integer [random_state] seeds a fresh generator
    for the fit; [None] draws from the global one. *)
Definition fit (model : Estimator) (X : matrix) (y : list Q) (g : rng)
  : result predictor * rng :=
  match model with
  | LinearRegression => (least_squares X y, g)
  | RandomForestRegressor n (Some seed) =>
      (fst (grow_forest n (RandomState seed) X y), g)
  | RandomForestRegressor n None => grow_forest n g X y
  | DecisionTreeRegressor (Some seed) =>
      (fst (grow_tree (RandomState seed) X y), g)
  | DecisionTreeRegressor None => grow_tree g X y
  end.

(** [open_forecast_plot(model_name, model, lag)], with the selected
    [column] and the global generator made explicit. *)
Definition open_forecast_plot (model_name : string) (model : Estimator) (lag : nat)
  (df : DataFrame) (column : string) (g : rng) : Outcome * rng :=
  match validate_numeric_column df column "прогнозирования" with
  | Some msg => (Warning msg, g)
  | None =>
      match column_values df column with
      | inl e => (Critical (str e), g)
      | inr data =>
          if (List.length data <? lag * 2)%nat
          then (Warning ("Недостаточно данных для прогноза. Нужно минимум "
                         ++ show_nat (lag * 2) ++ " значений"), g)
          else
            let '(X, y) := lag_features data lag in
            match train_test_split X y with
            | inl e => (Critical (str e), g)
            | inr (X_train, X_test, y_train, y_test) =>
                match fit model X_train y_train g with
                | (inl e, g') => (Critical (str e), g')
                | (inr predict, g') =>
                    let y_pred := map predict X_test in
                    let mae := mean_absolute_error y_test y_pred in
                    let rmse := fsqrt (of_Q (mean_squared_error y_test y_pred)) in
                    let r2 := r2_score y_test y_pred in
                    (Plotted {| run_model_name := model_name;
                                run_column := column;
                                run_lag := lag;
                                run_y_test := y_test;
                                run_y_pred := y_pred;
                                run_mae := mae;
                                run_rmse := rmse;
                                run_r2 := r2 |}, g')
                end
            end
      end
  end.

Definition open_linear_regression_plot :=
  open_forecast_plot "Линейная регрессия" LinearRegression 7.

Definition open_random_forest_plot :=
  open_forecast_plot "Random Forest" (RandomForestRegressor 100 (Some 42%Z)) 7.

Definition open_decision_tree_plot :=
  open_forecast_plot "Decision Tree" (DecisionTreeRegressor (Some 42%Z)) 7.

End Forecast.

(* ================================================================== *)
(** * Scenarios and reference definitions *)
(* ================================================================== *)

(** A frame whose numeric column holds the given cells, one reading per
    second. *)
Fixpoint frame_from (t : Z) (cells : list (option Q)) : DataFrame :=
  match cells with
  | [] => []
  | c :: rest =>
      {| time := t; activity := Some "питьё"; volume := c |}
        :: frame_from (t + 1000000000) rest
  end.

Definition frame_of (values : list Q) : DataFrame := frame_from 0 (map Some values).

(** Scenario A: the column [1, 2, 2, 3, 4]. *)
Definition scenario_A : DataFrame := frame_of [1; 2; 2; 3; 4]%Q.

(** Scenario B: the readings [2, 4, 6, 8, 10], one per second. *)
Definition scenario_B : DataFrame := frame_of [2; 4; 6; 8; 10]%Q.

(** Scenario D: the series 1..14. *)
Definition series_D : list Q :=
  map (fun k => inject_Z (Z.of_nat k)) (seq 1 14).

(** A column of fourteen equal readings, and a column with one reading. *)
Definition constant_frame : DataFrame := frame_of (repeat 5%Q 14).
Definition single_frame : DataFrame := frame_of [5%Q].

(** Whether row [r] has a value in the column named [col]. *)
Definition cell_present (r : Row) (col : string) : bool :=
  if col =? "Время" then true
  else if col =? "Активность" then is_some (activity r)
  else if col =? "Объем воды (л)" then is_some (volume r)
  else false.

(** The rows left after pairwise exclusion: both cells present. *)
Definition valid_rows (df : DataFrame) (col1 col2 : string) : list Row :=
  filter (fun r => cell_present r col1 && cell_present r col2) df.

(** A learner that needs no fitting: it predicts the last value of the
    lag window. *)
Definition persistence : predictor := fun row => last row 0%Q.

(** Whatever the lookup returns is a column of the frame: one cell per
    row, present exactly where [cell_present] says. *)
Inductive column_of (df : DataFrame) (col : string) : Series -> Prop :=
| column_float (c : Row -> option Q) :
    (forall r, is_some (c r) = cell_present r col) ->
    column_of df col (Float64 (map c df))
| column_text (c : Row -> option string) :
    (forall r, is_some (c r) = cell_present r col) ->
    column_of df col (Object (map c df)).

(** The two halves of [calculate_correlation_try], named for the proofs:
    the lookup that encodes the time column, and everything after both
    columns are in hand. *)
Definition encode_column (df : DataFrame) (col : string) : result Series :=
  if col =? "Время" then ret (datetime_to_numeric df) else getitem df col.

Definition correlate (col1 col2 : string) (data1 data2 : Series)
  : result CorrelationResult :=
  (let mask := mask_and (notna data1) (notna data2) in
   let data1_clean := select_series data1 mask in
   let data2_clean := select_series data2 mask in
   if (len data1_clean <? 2)%nat
   then ret (ErrorRecord "Недостаточно данных для расчета")
   else
     correlation <- corr data1_clean data2_clean ;;
     ret (Computed {|
       corr_col1 := col1;
       corr_col2 := col2;
       corr_r := correlation;
       corr_strength := interpret_correlation correlation;
       corr_interpretation := get_correlation_interpretation correlation;
       corr_n := len data1_clean;
       corr_p := estimate_p_value correlation (Z.of_nat (len data1_clean))
     |}))%py.

Definition swap (p : Q * Q) : Q * Q := (snd p, fst p).

(** Learners that return [persistence] whatever the training set, over a
    generator with a single state. *)
Definition naive_least_squares (X : matrix) (y : list Q) : result predictor :=
  ret persistence.

Definition naive_tree (g : unit) (X : matrix) (y : list Q) : result predictor * unit :=
  (ret persistence, g).

Definition naive_forest (n : nat) (g : unit) (X : matrix) (y : list Q)
  : result predictor * unit :=
  (ret persistence, g).

(** The predictions of an outcome, when it has a run. *)
Definition outcome_y_pred (o : Outcome) : list Q :=
  match o with Plotted run => run_y_pred run | _ => [] end.

(** The estimators whose fit does not read the global generator: least
    squares, and a tree or forest built with an integer [random_state]. *)
Definition seeded (model : Estimator) : Prop :=
  match model with
  | LinearRegression => True
  | RandomForestRegressor _ (Some _) => True
  | DecisionTreeRegressor (Some _) => True
  | _ => False
  end.

(** A toy tree learner over a generator that is a single number: the
    tree predicts the number it drew. *)
Definition toy_tree (g : Q) (X : matrix) (y : list Q) : result predictor * Q :=
  (ret (fun _ : list Q => g), (g + 1)%Q).

(** The split index in the words of the specification,
    [floor(0.8 * n)], and the two candidate test sizes
    [floor(0.2 * n)] and [ceil(0.2 * n)]. *)
Definition split_index (n : nat) : nat :=
  Z.to_nat (Qfloor ((8 # 10) * inject_Z (Z.of_nat n))).

Definition fifth_floor (n : nat) : nat :=
  Z.to_nat (Qfloor ((2 # 10) * inject_Z (Z.of_nat n))).

Definition fifth_ceiling (n : nat) : nat :=
  Z.to_nat (Qceiling ((2 # 10) * inject_Z (Z.of_nat n))).

(* ================================================================== *)
(** * The numeric column at load time *)
(* ================================================================== *)

(** A cell of the sheet as [pd.read_excel] hands it over. *)
Inductive RawCell :=
| RawNumber (q : Q)
| RawText (txt : string)
| RawBlank.

(** [Series.mean()]: the mean of the present cells, NaN when there is
    none. *)
Definition series_mean (cells : list (option Q)) : option Q :=
  match present cells with
  | [] => None
  | data => Some (qmean data)
  end.

(** [Series.fillna(value)] *)
Definition fillna (cells : list (option Q)) (value : option Q) : list (option Q) :=
  map (fun c => match c with Some x => Some x | None => value end) cells.

Section Parsing.

(** How pandas reads a text cell as a number; [None] when it cannot. *)
Variable parse_float : string -> option Q.

(** [pd.to_numeric(cells, errors='coerce')] *)
Definition to_numeric_coerce (cells : list RawCell) : list (option Q) :=
  map (fun c => match c with
                | RawNumber q => Some q
                | RawText txt => parse_float txt
                | RawBlank => None
                end) cells.

(** The two statements of [load_file] on the numeric column:
    [df[c] = pd.to_numeric(df[c], errors='coerce')] and
    [df[c].fillna(df[c].mean(), inplace=True)]. *)
Definition load_volume (cells : list RawCell) : list (option Q) :=
  let column := to_numeric_coerce cells in
  fillna column (series_mean column).

(* ================================================================== *)
(** * The scatter plot *)
(* ================================================================== *)

(** [pd.to_numeric(s, errors='coerce')] on a column of the frame. *)
Definition to_numeric_series (s : Series) : Series :=
  match s with
  | Float64 l => Float64 l
  | Object l =>
      Float64 (map (fun c => match c with
                             | Some txt => parse_float txt
                             | None => None
                             end) l)
  | Datetime64 l => Float64 (map (fun t => Some (inject_Z t)) l)
  end.

(** [x.min()] of the datetimes. *)
Definition min_time (times : list Z) : Z :=
  match times with
  | [] => 0%Z
  | t :: rest => fold_left Z.min rest t
  end.

(** [x = pd.to_datetime(df['Время']); (x - x.min()).dt.total_seconds()] *)
Definition elapsed_seconds (df : DataFrame) : Series :=
  let t0 := min_time (map time df) in
  Float64 (map (fun r => Some (inject_Z (time r - t0) / inject_Z 1000000000)%Q) df).

(** What [plot_scatter] puts on the axes: the points, the coefficient in
    the title and the annotation.  The fitted line is left out. *)
Record ScatterPlot := {
  scatter_x : list (option Q);
  scatter_y : list (option Q);
  scatter_r : float;
  scatter_strength : string;
  scatter_n : nat
}.

(** [plot_scatter(ax, col1, col2)] *)
Definition plot_scatter (df : DataFrame) (col1 col2 : string) : result ScatterPlot :=
  (x_data <- getitem df col1 ;;
   y_data <- getitem df col2 ;;
   let x_numeric :=
     if col1 =? "Время" then elapsed_seconds df else to_numeric_series x_data in
   let y_numeric :=
     if col2 =? "Время" then elapsed_seconds df else to_numeric_series y_data in
   let mask := mask_and (notna x_numeric) (notna y_numeric) in
   let x_clean := select_series x_numeric mask in
   let y_clean := select_series y_numeric mask in
   if (len x_clean <? 2)%nat
   then raise (ValueError "Недостаточно данных для корреляции")
   else
     correlation <- corr x_clean y_clean ;;
     ret {| scatter_x := match x_clean with Float64 l => l | _ => [] end;
            scatter_y := match y_clean with Float64 l => l | _ => [] end;
            scatter_r := correlation;
            scatter_strength := interpret_correlation correlation;
            scatter_n := len x_clean |})%py.

End Parsing.

(** [PlotWindow.plot_data(plot_function, ...)]: the canvas shows the plot,
    or the text of whatever the plot function raised. *)
Inductive Canvas (A : Type) :=
| Drawn (plot : A)
| ErrorShown (message : string).

Arguments Drawn {A} plot.
Arguments ErrorShown {A} message.

Definition plot_data {A : Type} (plot : result A) : Canvas A :=
  match plot with
  | inr drawn => Drawn drawn
  | inl e => ErrorShown (str e)
  end.

(** [validate_two_columns(col1, col2, action_name)]: the warning it shows,
    or [None] when it returns [True]. *)
Definition validate_two_columns (col1 col2 action_name : string) : option string :=
  if negb (existsb (String.eqb col1) columns) || negb (existsb (String.eqb col2) columns)
  then Some "Один из столбцов не найден"
  else if col1 =? col2 then Some "Выберите разные столбцы"
  else None.

(** A plot button either stops at a warning or opens a window. *)
Inductive PlotOutcome (A : Type) :=
| PlotWarning (msg : string)
| PlotWindow (canvas : Canvas A).

Arguments PlotWarning {A} msg.
Arguments PlotWindow {A} canvas.

(** [open_scatter_plot()], for the two selected columns. *)
Definition open_scatter_plot (parse_float : string -> option Q)
  (df : DataFrame) (col1 col2 : string) : PlotOutcome ScatterPlot :=
  match validate_two_columns col1 col2 "построения Scatter Plot" with
  | Some msg => PlotWarning msg
  | None => PlotWindow (plot_data (plot_scatter parse_float df col1 col2))
  end.

(* ================================================================== *)
(** * Histogram bins and the IQR box plot *)
(* ================================================================== *)

(** [calculate_optimal_bins(data)], as a function of [n = len(data)];
    [int(...)] of a non-negative number is its integer part. *)
Definition calculate_optimal_bins (n : nat) : Z :=
  if (n <=? 30)%nat then Z.of_nat (Nat.min 10 n)
  else if (n <=? 100)%nat then Int_part (sqrt (INR n))
  else Int_part (1 + 3.322 * (ln (INR n) / ln 10))%R.

Definition Qlt_bool (x y : Q) : bool := negb (Qle_bool y x).

(** The numbers [plot_boxplot_iqr] works out for the column. *)
Record BoxPlot := {
  box_q1 : Q;
  box_q3 : Q;
  box_iqr : Q;
  box_median : Q;
  box_mean : Q;
  box_lower_bound : Q;
  box_upper_bound : Q;
  box_outliers : list Q
}.

(** [plot_boxplot_iqr(ax, column)] *)
Definition plot_boxplot_iqr (df : DataFrame) (column : string) : result BoxPlot :=
  (data <- column_values df column ;;
   let q1 := Stats.quantile data (25 # 100) in
   let q3 := Stats.quantile data (75 # 100) in
   let iqr := (q3 - q1)%Q in
   let median := Stats.median data in
   let lower_bound := (q1 - (15 # 10) * iqr)%Q in
   let upper_bound := (q3 + (15 # 10) * iqr)%Q in
   let outliers :=
     filter (fun x => Qlt_bool x lower_bound || Qlt_bool upper_bound x) data in
   ret {| box_q1 := q1;
          box_q3 := q3;
          box_iqr := iqr;
          box_median := median;
          box_mean := qmean data;
          box_lower_bound := lower_bound;
          box_upper_bound := upper_bound;
          box_outliers := outliers |})%py.

(** [open_boxplot_iqr()], for the selected column. *)
Definition open_boxplot_iqr (df : DataFrame) (column : string) : PlotOutcome BoxPlot :=
  match validate_numeric_column df column "построения Box Plot (IQR)" with
  | Some msg => PlotWarning msg
  | None => PlotWindow (plot_data (plot_boxplot_iqr df column))
  end.

(* ================================================================== *)
(** * [perform_calculation] *)
(* ================================================================== *)

Module App.

(** The attributes of the window that the calculation sets; [None] is an
    attribute that does not exist yet. *)
Record state := {
  single_col : option string;
  corr_col1 : option string;
  corr_col2 : option string;
  stats_result : option StatSummary;
  corr_result : option CorrelationResult
}.

(** The message box a handler ends with, if any. *)
Inductive dialog :=
| Silent
| WarningBox (msg : string)
| CriticalBox (msg : string).

End App.

(** [perform_calculation()], for the texts of the three combo boxes. *)
Definition perform_calculation (df : DataFrame) (single col1 col2 : string)
  (st : App.state) : App.state * App.dialog :=
  let selected :=
    {| App.single_col := Some single;
       App.corr_col1 := Some col1;
       App.corr_col2 := Some col2;
       App.stats_result := App.stats_result st;
       App.corr_result := App.corr_result st |} in
  if (single =? "Активность") || (single =? "Время")
  then (selected,
        App.WarningBox "Для статистического анализа выберите числовой столбец")
  else
    match calculate_statistics df single with
    | inl e => (selected, App.CriticalBox (str e))
    | inr stats =>
        ({| App.single_col := Some single;
            App.corr_col1 := Some col1;
            App.corr_col2 := Some col2;
            App.stats_result := Some stats;
            App.corr_result := Some (calculate_correlation df col1 col2) |},
         App.Silent)
    end.

(** The state of a window that has calculated nothing yet. *)
Definition fresh_state : App.state :=
  {| App.single_col := None;
     App.corr_col1 := None;
     App.corr_col2 := None;
     App.stats_result := None;
     App.corr_result := None |}.

(* ================================================================== *)
(** * Order on lists of rationals *)
(* ================================================================== *)

(** Every element is at most all the later ones. *)
Fixpoint ascending (l : list Q) : Prop :=
  match l with
  | [] => True
  | x :: rest => (forall y, In y rest -> (x <= y)%Q) /\ ascending rest
  end.

(** The value [Stats.quantile] reads off sorted data at a fractional
    position. *)
Definition interpolate (s : list Q) (pos : Q) : Q :=
  let lo := Z.to_nat (Qfloor pos) in
  let hi := Nat.min (lo + 1) (List.length s - 1) in
  (nth lo s 0 + (nth hi s 0 - nth lo s 0) * (pos - inject_Z (Qfloor pos)))%Q.

(** A position inside the data: between the first and the last index. *)
Definition inside (s : list Q) (pos : Q) : Prop :=
  (0 <= pos <= inject_Z (Z.of_nat (List.length s) - 1))%Q.

(* ================================================================== *)
(** * Rescaled columns *)
(* ================================================================== *)

(** [p'] is [p] with its first member rescaled by [a], [b] and its second
    by [c], [d]. *)
Definition pair_affine (a b c d : Q) (p' p : Q * Q) : Prop :=
  (fst p' == a * fst p + b)%Q /\ (snd p' == c * snd p + d)%Q.

(** The cell [x'] is missing when [x] is, and is [a * x + b] otherwise. *)
Definition cell_affine (a b : Q) (x' x : option Q) : Prop :=
  match x', x with
  | None, None => True
  | Some v', Some v => (v' == a * v + b)%Q
  | _, _ => False
  end.

(** The two halves of [plot_scatter], named for the proofs: the numeric
    form of one column, and everything after both are in hand. *)
Definition scatter_numeric (parse_float : string -> option Q)
  (df : DataFrame) (col : string) : result Series :=
  (data <- getitem df col ;;
   ret (if col =? "Время" then elapsed_seconds df
        else to_numeric_series parse_float data))%py.

Definition scatter_points (x_numeric y_numeric : Series) : result ScatterPlot :=
  (let mask := mask_and (notna x_numeric) (notna y_numeric) in
   let x_clean := select_series x_numeric mask in
   let y_clean := select_series y_numeric mask in
   if (len x_clean <? 2)%nat
   then raise (ValueError "Недостаточно данных для корреляции")
   else
     correlation <- corr x_clean y_clean ;;
     ret {| scatter_x := match x_clean with Float64 l => l | _ => [] end;
            scatter_y := match y_clean with Float64 l => l | _ => [] end;
            scatter_r := correlation;
            scatter_strength := interpret_correlation correlation;
            scatter_n := len x_clean |})%py.

(** How a forecast over enough data can end: with a plot that has at
    least two test values and a defined R², or with the message of the
    exception the learner raised. *)
Definition plotted_or_learner_failed (o : Outcome) : Prop :=
  match o with
  | Plotted run =>
      (2 <= List.length (run_y_test run))%nat /\
      List.length (run_y_pred run) = List.length (run_y_test run) /\
      run_r2 run <> NaN
  | Critical msg => exists e : exn, msg = str e
  | Warning _ => False
  end.

(** Pressing the calculate button once per selection, in order. *)
Fixpoint calculate_all (df : DataFrame) (selections : list (string * string * string))
  (st : App.state) : App.state :=
  match selections with
  | [] => st
  | (single, col1, col2) :: rest =>
      calculate_all df rest (fst (perform_calculation df single col1 col2 st))
  end.

(** What a text button does: the warning it shows, the window it opens
    (its title and the stored result its text is formatted from), or the
    attribute whose absence ends the handler with an [AttributeError]. *)
Inductive TextOutcome (A : Type) :=
| TextWarning (msg : string)
| TextWindow (title : string) (shown : A)
| MissingAttribute (name : string).

Arguments TextWarning {A} msg.
Arguments TextWindow {A} title shown.
Arguments MissingAttribute {A} name.

(** [open_statistics_window()] *)
Definition open_statistics_window (st : App.state) : TextOutcome StatSummary :=
  match App.stats_result st with
  | None => TextWarning "Сначала выполните расчет данных"
  | Some stats =>
      match App.single_col st with
      | None => MissingAttribute "single_col"
      | Some single => TextWindow ("Статистический анализ: " ++ single) stats
      end
  end.

(** [open_correlation_window()] *)
Definition open_correlation_window (st : App.state) : TextOutcome CorrelationResult :=
  match App.corr_result st with
  | None => TextWarning "Сначала выполните расчет данных"
  | Some shown =>
      match App.corr_col1 st, App.corr_col2 st with
      | Some col1, Some col2 =>
          TextWindow ("Корреляционный анализ: " ++ col1 ++ " vs " ++ col2) shown
      | None, _ => MissingAttribute "corr_col1"
      | _, None => MissingAttribute "corr_col2"
      end
  end.

(* ================================================================== *)
(** * Facts about the float model *)
(* ================================================================== *)

Section FloatFacts.

Local Open Scope R_scope.

Lemma Rltb_true x y : x < y -> Rltb x y = true.
Proof. intros H. unfold Rltb. destruct (Rlt_dec x y); [reflexivity | contradiction]. Qed.

Lemma Rltb_false x y : y <= x -> Rltb x y = false.
Proof. intros H. unfold Rltb. destruct (Rlt_dec x y); [lra | reflexivity]. Qed.

Lemma Reqb_true x y : x = y -> Reqb x y = true.
Proof. intros H. unfold Reqb. destruct (Req_dec_T x y); [reflexivity | contradiction]. Qed.

Lemma Reqb_false x y : x <> y -> Reqb x y = false.
Proof. intros H. unfold Reqb. destruct (Req_dec_T x y); [contradiction | reflexivity]. Qed.

Lemma signed_pos x i : 0 < x -> signed x i = i.
Proof. intros H. unfold signed. now rewrite Rltb_true. Qed.

Lemma signed_neg x i : x < 0 -> signed x i = fneg i.
Proof.
  intros H. unfold signed.
  rewrite Rltb_false by lra. now rewrite Rltb_true.
Qed.

Lemma signed_zero i : signed 0 i = NaN.
Proof. unfold signed. now rewrite !Rltb_false by lra. Qed.

Lemma fsqrt_Fin x : 0 <= x -> fsqrt (Fin x) = Fin (sqrt x).
Proof. intros H. simpl. now rewrite Rltb_false. Qed.

(** The square root of a finite value is NaN or a non-negative finite
    value. *)
Lemma fsqrt_Fin_cases x :
  fsqrt (Fin x) = NaN \/ exists s, 0 <= s /\ fsqrt (Fin x) = Fin s.
Proof.
  simpl. unfold Rltb. destruct (Rlt_dec x 0).
  - now left.
  - right. exists (sqrt x). split; [apply sqrt_pos | reflexivity].
Qed.

(** Dividing by two standard deviations in either order. *)
Lemma fdiv_fdiv_swap c x y :
  0 <= x -> 0 <= y ->
  fdiv (fdiv (Fin c) (Fin x)) (Fin y) = fdiv (fdiv (Fin c) (Fin y)) (Fin x).
Proof.
  intros Hx Hy. simpl.
  destruct (Req_dec_T x 0) as [Ex | Nx], (Req_dec_T y 0) as [Ey | Ny].
  - subst. reflexivity.
  - subst x. rewrite (Reqb_true 0 0), (Reqb_false y 0) by auto.
    simpl. rewrite Reqb_true by reflexivity.
    assert (Py : 0 < y) by lra.
    destruct (Rtotal_order c 0) as [Hc | [Hc | Hc]].
    + rewrite !signed_neg; try assumption.
      * simpl. now rewrite Rltb_false by lra.
      * apply Rmult_lt_reg_r with y; [assumption|].
        unfold Rdiv. rewrite Rmult_assoc, Rinv_l by assumption. lra.
    + subst c. unfold Rdiv. rewrite Rmult_0_l. now rewrite !signed_zero.
    + rewrite !signed_pos; try assumption.
      * simpl. now rewrite Rltb_false by lra.
      * apply Rdiv_lt_0_compat; assumption.
  - subst y. rewrite (Reqb_true 0 0), (Reqb_false x 0) by auto.
    simpl. rewrite Reqb_true by reflexivity.
    assert (Px : 0 < x) by lra.
    destruct (Rtotal_order c 0) as [Hc | [Hc | Hc]].
    + rewrite !signed_neg; try assumption.
      * simpl. now rewrite Rltb_false by lra.
      * apply Rmult_lt_reg_r with x; [assumption|].
        unfold Rdiv. rewrite Rmult_assoc, Rinv_l by assumption. lra.
    + subst c. unfold Rdiv. rewrite Rmult_0_l. now rewrite !signed_zero.
    + rewrite !signed_pos; try assumption.
      * simpl. now rewrite Rltb_false by lra.
      * apply Rdiv_lt_0_compat; assumption.
  - rewrite (Reqb_false x 0), (Reqb_false y 0) by assumption.
    simpl. rewrite (Reqb_false x 0), (Reqb_false y 0) by assumption.
    f_equal. field. split; assumption.
Qed.

Lemma fdiv_NaN_r a : fdiv a NaN = NaN.
Proof. now destruct a. Qed.

Lemma fdiv_NaN_l b : fdiv NaN b = NaN.
Proof. reflexivity. Qed.

(** At [r = -1] the guard [r != 1] lets the formula run, and the
    division by [1 - r ** 2 = 0] makes it infinite. *)
Lemma t_stat_minus_one n :
  (2 < n)%Z -> t_stat (Fin (-1)) n = PInf.
Proof.
  intros Hn. unfold t_stat, fne, of_Z. simpl.
  rewrite (Reqb_false (-1) 1) by lra. simpl.
  rewrite Reqb_true by lra.
  rewrite signed_pos by (apply IZR_lt; lia).
  simpl. apply signed_pos.
  rewrite Rabs_left by lra. lra.
Qed.

Lemma t_stat_agrees r n :
  (2 < n)%Z -> t_stat r n = t_stat_spec r n.
Proof.
  intros Hn. destruct r as [ | | | x]; try reflexivity.
  destruct (Req_dec_T x 1) as [E1 | N1].
  - subst x. unfold t_stat, t_stat_spec, fne. simpl.
    now rewrite Reqb_true by reflexivity.
  - destruct (Req_dec_T x (-1)) as [E2 | N2].
    + subst x. rewrite t_stat_minus_one by assumption.
      unfold t_stat_spec. simpl.
      rewrite (Reqb_true (-1) (-1)) by reflexivity.
      now rewrite orb_true_r.
    + unfold t_stat, t_stat_spec, fne. simpl.
      now rewrite (Reqb_false x 1), (Reqb_false x (-1)) by assumption.
Qed.

End FloatFacts.

(** C6.  For more than two pairs, [estimate_p_value] returns the label of
    the bucket the specification gives for
    [t = |r| * sqrt((n-2)/(1-r²))], taken as infinite at [r = 1] and
    [r = -1]: above 3.5 highly significant, above 2.6 significant, above
    1.96 moderately significant, otherwise not significant. *)
Theorem estimate_p_value_buckets (r : float) (n : Z) :
  (2 < n)%Z ->
  estimate_p_value r n = significance_text (significance_spec (t_stat_spec r n)).
Proof.
  intros Hn. unfold estimate_p_value.
  replace (n <=? 2)%Z with false by (symmetry; apply Z.leb_gt; assumption).
  rewrite (t_stat_agrees r n Hn). unfold significance_spec.
  destruct (fgt (t_stat_spec r n) (Fin 3.5)); [reflexivity|].
  destruct (fgt (t_stat_spec r n) (Fin 2.6)); [reflexivity|].
  destruct (fgt (t_stat_spec r n) (Fin 1.96)); reflexivity.
Qed.

(** Scenario B: a perfect correlation over five pairs is highly
    significant, and so is a perfect inverse one. *)
Lemma estimate_p_value_buckets_witness :
  (2 < 5)%Z /\
  estimate_p_value (Fin 1) 5 = "< 0.001 (высоко значимо)" /\
  estimate_p_value (Fin (-1)) 5 = "< 0.001 (высоко значимо)".
Proof.
  split; [lia|]. split.
  - rewrite (estimate_p_value_buckets (Fin 1) 5) by lia.
    unfold t_stat_spec. simpl. now rewrite Reqb_true by reflexivity.
  - rewrite (estimate_p_value_buckets (Fin (-1)) 5) by lia.
    unfold t_stat_spec. simpl.
    rewrite (Reqb_true (-1) (-1))%R by reflexivity.
    now rewrite orb_true_r.
Defined.

(* ================================================================== *)
(** * Statistics of a column *)
(* ================================================================== *)

Lemma Q2R_decimal (q : Q) (n : Z) (d : positive) :
  (q == n # d)%Q -> Q2R q = (IZR n / IZR (Zpos d))%R.
Proof. intros H. rewrite (Qeq_eqR _ _ H). reflexivity. Qed.

(** C1.  Scenario A: for the column [1, 2, 2, 3, 4] the summary has mean
    2.4, median 2, primary mode 2, variance 1.3 (divisor n-1), a standard
    deviation between 1.1401754 and 1.1401755, q1 = 2, q3 = 3, iqr = 1 and
    outlier bounds 0.5 and 4.5. *)
Theorem scenario_A_statistics :
  exists s,
    calculate_statistics scenario_A "Объем воды (л)" = inr s /\
    (stat_mean s == 24 # 10)%Q /\
    (stat_median s == 2)%Q /\
    stat_mode s = Some 2%Q /\
    stat_more_modes s = None /\
    stat_variance s = Fin 1.3 /\
    (exists sd, stat_std s = Fin sd /\ 1.1401754 < sd < 1.1401755)%R /\
    (stat_q1 s == 2)%Q /\
    (stat_q3 s == 3)%Q /\
    (stat_iqr s == 1)%Q /\
    (stat_outlier_lower s == 5 # 10)%Q /\
    (stat_outlier_upper s == 45 # 10)%Q.
Proof.
  eexists. split; [reflexivity|].
  assert (V : Stats.var [1; 2; 2; 3; 4]%Q 1 = Fin 1.3).
  { unfold Stats.var. simpl. unfold of_Q. f_equal.
    rewrite (Q2R_decimal _ 13 10) by (lazy; reflexivity). lra. }
  repeat split; try (lazy; reflexivity).
  - exact V.
  - exists (sqrt 1.3). split.
    + change (fsqrt (Stats.var [1; 2; 2; 3; 4]%Q 1) = Fin (sqrt 1.3)).
      rewrite V. apply fsqrt_Fin. lra.
    + split; apply Rsqr_incrst_0; try lra; try apply sqrt_pos;
        rewrite Rsqr_sqrt by lra; unfold Rsqr; lra.
Qed.

Lemma present_select (l : list (option Q)) :
  present (select l (map is_some l)) = present l.
Proof.
  induction l as [| [x |] l IH]; simpl; [reflexivity | now rewrite IH | exact IH].
Qed.

Lemma length_select_present (l : list (option Q)) :
  List.length (select l (map is_some l)) = List.length (present l).
Proof.
  induction l as [| [x |] l IH]; simpl; [reflexivity | now rewrite IH | exact IH].
Qed.

(** On the numeric column the computation fails exactly when no value is
    present, and otherwise summarises the present values. *)
Lemma calculate_statistics_volume (df : DataFrame) :
  calculate_statistics df "Объем воды (л)" =
  match present (map volume df) with
  | [] => inl (ValueError
            "Ошибка при расчете статистики: Столбец 'Объем воды (л)' не содержит данных")
  | data => inr (summarize data)
  end.
Proof.
  unfold calculate_statistics, calculate_statistics_try.
  change (existsb (String.eqb "Объем воды (л)") columns) with true.
  change (getitem df "Объем воды (л)") with (ret (Float64 (map volume df))).
  cbn [negb bind ret dropna select_series notna len is_numeric_dtype].
  rewrite length_select_present, present_select.
  destruct (present (map volume df)) as [| x data]; reflexivity.
Qed.

(** Only the numeric column is ever summarised. *)
Lemma calculate_statistics_inv (df : DataFrame) (column : string) (s : StatSummary) :
  calculate_statistics df column = inr s ->
  column = "Объем воды (л)" /\
  present (map volume df) <> [] /\
  s = summarize (present (map volume df)).
Proof.
  intros H.
  assert (C : column = "Объем воды (л)").
  { unfold calculate_statistics, calculate_statistics_try, columns, getitem in H.
    cbn [existsb] in H.
    destruct (String.eqb_spec column "Время") as [E | _].
    { subst. destruct df; discriminate H. }
    destruct (String.eqb_spec column "Активность") as [E | _].
    { subst. cbn in H.
      destruct (List.length (select (map activity df) (map is_some (map activity df))));
        discriminate H. }
    destruct (String.eqb_spec column "Объем воды (л)") as [E | _];
      [exact E | discriminate H]. }
  subst column. rewrite calculate_statistics_volume in H.
  destruct (present (map volume df)) as [| x data]; [discriminate H|].
  split; [reflexivity|]. split; [discriminate|]. now inversion H.
Qed.

Lemma moment2_nonneg (l : list Q) : (0 <= Stats.moment l 2)%Q.
Proof.
  unfold Stats.moment. generalize (qmean l). intros m.
  induction l as [| x l IH]; simpl.
  - apply Qle_refl.
  - change 0%Q with (0 + 0)%Q. apply Qplus_le_compat; [apply Qpower.Qsqr_nonneg | exact IH].
Qed.

(** With two or more values the variance is the sum of squared deviations
    over [n - 1], a non-negative number. *)
Lemma var_bessel (l : list Q) :
  (2 <= List.length l)%nat ->
  exists v : Q,
    (v == Stats.moment l 2 / inject_Z (Z.of_nat (List.length l) - 1))%Q /\
    (0 <= v)%Q /\ Stats.var l 1 = of_Q v.
Proof.
  intros Hn. exists (Stats.moment l 2 / inject_Z (Z.of_nat (List.length l) - 1))%Q.
  split; [reflexivity|]. split.
  - apply Qmult_le_0_compat; [apply moment2_nonneg|].
    apply Qinv_le_0_compat. change 0%Q with (inject_Z 0).
    rewrite <- Zle_Qle. lia.
  - unfold Stats.var.
    replace (Z.of_nat (List.length l) - Z.of_nat 1 <=? 0)%Z with false
      by (symmetry; apply Z.leb_gt; lia).
    reflexivity.
Qed.

Lemma var_single (x : Q) : Stats.var [x] 1 = NaN.
Proof. reflexivity. Qed.

(** C8, as the program has it.  With two or more present values the
    variance is the sum of squared deviations over [n - 1] and the standard
    deviation is its square root.  With exactly one present value the
    summary is still produced and reports NaN for both.  With none the
    computation fails with a [ValueError]. *)
Theorem variance_by_column_size (df : DataFrame) :
  let data := present (map volume df) in
  ((2 <= List.length data)%nat ->
     exists s v,
       calculate_statistics df "Объем воды (л)" = inr s /\
       (v == qsum (map (fun x => (x - qmean data) ^ 2) data)
             / inject_Z (Z.of_nat (List.length data) - 1))%Q /\
       stat_variance s = Fin (Q2R v) /\
       stat_std s = Fin (sqrt (Q2R v))) /\
  (List.length data = 1%nat ->
     exists s,
       calculate_statistics df "Объем воды (л)" = inr s /\
       stat_variance s = NaN /\ stat_std s = NaN) /\
  (List.length data = 0%nat ->
     exists msg, calculate_statistics df "Объем воды (л)" = inl (ValueError msg)).
Proof.
  intros data. rewrite calculate_statistics_volume. fold data.
  split; [| split]; intros Hn.
  - destruct (var_bessel data Hn) as [v [Hv [Hpos Hvar]]].
    destruct data as [| x rest] eqn:E; [simpl in Hn; lia|]. rewrite <- E in *.
    exists (summarize data), v. split; [reflexivity|]. split; [exact Hv|].
    split; [exact Hvar|].
    change (fsqrt (Stats.var data 1) = Fin (sqrt (Q2R v))).
    rewrite Hvar. apply fsqrt_Fin.
    rewrite <- RMicromega.Q2R_0. apply Qle_Rle. exact Hpos.
  - destruct data as [| x [| y rest]]; try discriminate Hn.
    exists (summarize [x]). repeat split.
  - destruct data; [| discriminate Hn]. eexists. reflexivity.
Qed.

Lemma variance_by_column_size_witness :
  List.length (present (map volume single_frame)) = 1%nat /\
  exists s,
    calculate_statistics single_frame "Объем воды (л)" = inr s /\
    stat_variance s = NaN /\ stat_std s = NaN.
Proof.
  split; [reflexivity|].
  apply (proj1 (proj2 (variance_by_column_size single_frame))). reflexivity.
Defined.

(** A column with a single value: fewer than two values are present, yet
    the computation does not fail; it returns a summary whose variance is
    NaN. *)
Lemma single_value_column_is_summarised :
  (List.length (present (map volume single_frame)) < 2)%nat /\
  exists s,
    calculate_statistics single_frame "Объем воды (л)" = inr s /\
    stat_variance s = NaN.
Proof.
  split; [simpl; lia|].
  eexists. split; reflexivity.
Qed.

(** The coefficient of variation is left out exactly when the mean is 0. *)
Lemma cv_absent_iff_zero_mean (df : DataFrame) (column : string) (s : StatSummary) :
  calculate_statistics df column = inr s ->
  (stat_cv s = None <-> (stat_mean s == 0)%Q).
Proof.
  intros H. apply calculate_statistics_inv in H as [_ [_ ->]].
  cbn [summarize stat_cv stat_mean].
  destruct (Qeq_bool (qmean (present (map volume df))) 0) eqn:E; cbn [negb].
  - split; [intros _; now apply Qeq_bool_eq | reflexivity].
  - split; [discriminate|]. intros Z. apply Qeq_bool_neq in E. contradiction.
Qed.

(* ================================================================== *)
(** * Lag features and the chronological split *)
(* ================================================================== *)

Lemma lag_loop_spec (data : list Q) (lag : nat) (range : list nat) :
  forall X y,
    lag_loop data lag range X y =
    ((X ++ map (fun i => slice data i (i + lag)) range)%list,
     (y ++ map (fun i => nth (i + lag) data 0%Q) range)%list).
Proof.
  induction range as [| i rest IH]; intros X y; simpl.
  - now rewrite !app_nil_r.
  - rewrite IH, <- !app_assoc. reflexivity.
Qed.

Lemma lag_features_map (data : list Q) (lag : nat) :
  lag_features data lag =
  (map (fun i => slice data i (i + lag)) (seq 0 (List.length data - lag)),
   map (fun i => nth (i + lag) data 0%Q) (seq 0 (List.length data - lag))).
Proof. unfold lag_features. now rewrite lag_loop_spec. Qed.

Lemma slice_window (data : list Q) (i lag : nat) :
  slice data i (i + lag) = firstn lag (skipn i data).
Proof. unfold slice. f_equal. lia. Qed.

(** Row [i] of the features is the window of width [lag] that starts at
    [i], and label [i] is the value right after it. *)
Lemma lag_features_rows (data : list Q) (lag i : nat) :
  (i < List.length data - lag)%nat ->
  nth_error (fst (lag_features data lag)) i = Some (firstn lag (skipn i data)) /\
  List.length (firstn lag (skipn i data)) = lag /\
  nth_error (snd (lag_features data lag)) i = nth_error data (i + lag) /\
  nth_error data (i + lag) <> None.
Proof.
  intros Hi. rewrite lag_features_map. cbn [fst snd].
  rewrite !nth_error_map, nth_error_seq.
  replace (i <? List.length data - lag)%nat with true
    by (symmetry; apply Nat.ltb_lt; exact Hi).
  cbn [option_map Nat.add]. rewrite slice_window.
  split; [reflexivity|]. split.
  - rewrite length_firstn, length_skipn. lia.
  - assert (Hin : (i + lag < List.length data)%nat) by lia.
    rewrite (nth_error_nth' data 0%Q Hin). split; [reflexivity | discriminate].
Qed.

Lemma lag_features_length (data : list Q) (lag : nat) :
  List.length (fst (lag_features data lag)) = (List.length data - lag)%nat /\
  List.length (snd (lag_features data lag)) = (List.length data - lag)%nat.
Proof.
  rewrite lag_features_map. cbn [fst snd].
  now rewrite !length_map, !length_seq.
Qed.

Lemma fifth_ceiling_div (n : nat) : fifth_ceiling n = ((n + 4) / 5)%nat.
Proof.
  unfold fifth_ceiling, Qceiling, Qfloor. cbn [Qopp Qmult inject_Z Qnum Qden].
  change (Z.pos (10 * 1)) with 10%Z.
  apply Nat2Z.inj. rewrite Nat2Z.inj_div, Nat2Z.inj_add, Z2Nat.id.
  - Z.to_euclidean_division_equations. lia.
  - Z.to_euclidean_division_equations. lia.
Qed.

Lemma split_index_complement (n : nat) : split_index n = (n - fifth_ceiling n)%nat.
Proof.
  rewrite fifth_ceiling_div.
  unfold split_index, Qfloor. cbn [Qmult inject_Z Qnum Qden].
  change (Z.pos (10 * 1)) with 10%Z.
  apply Nat2Z.inj. rewrite Z2Nat.id.
  - rewrite Nat2Z.inj_sub.
    + rewrite Nat2Z.inj_div, Nat2Z.inj_add.
      Z.to_euclidean_division_equations. lia.
    + destruct n as [| n]; [apply Nat.le_refl|].
      apply Nat.Div0.div_le_upper_bound. lia.
  - Z.to_euclidean_division_equations. lia.
Qed.

Lemma fifth_ceiling_bounds (n : nat) :
  (2 <= n)%nat -> (1 <= fifth_ceiling n < n)%nat.
Proof.
  intros Hn. rewrite fifth_ceiling_div. split.
  - apply Nat.div_le_lower_bound; lia.
  - apply Nat.Div0.div_lt_upper_bound. lia.
Qed.

(** C3, as the program has it.  For a feature set of at least two rows
    the split keeps the order: the training rows are the first
    [floor(0.8 * n)] rows and the test rows are all the remaining ones, so
    the two parts add up to the whole and the test part has
    [ceil(0.2 * n)] rows. *)
Theorem chronological_split {A B : Type} (X : list A) (y : list B) :
  (2 <= List.length X)%nat ->
  List.length y = List.length X ->
  let split := split_index (List.length X) in
  train_test_split X y
    = inr (firstn split X, skipn split X, firstn split y, skipn split y) /\
  X = (firstn split X ++ skipn split X)%list /\
  (List.length (firstn split X) + List.length (skipn split X))%nat = List.length X /\
  List.length (skipn split X) = fifth_ceiling (List.length X).
Proof.
  intros Hn Hy split.
  pose proof (fifth_ceiling_bounds _ Hn) as Hb.
  pose proof (split_index_complement (List.length X)) as Hs. fold split in Hs.
  split; [| split; [| split]].
  - unfold train_test_split.
    change (Z.to_nat (Qceiling ((2 # 10) * inject_Z (Z.of_nat (List.length X)))))
      with (fifth_ceiling (List.length X)).
    rewrite <- Hs.
    replace (split =? 0)%nat with false by (symmetry; apply Nat.eqb_neq; lia).
    rewrite (firstn_all2 (skipn split X)) by (rewrite length_skipn; lia).
    rewrite (firstn_all2 (skipn split y)) by (rewrite length_skipn; lia).
    reflexivity.
  - symmetry. apply firstn_skipn.
  - rewrite length_firstn, length_skipn. lia.
  - rewrite length_skipn. lia.
Qed.

Lemma chronological_split_witness :
  (2 <= List.length (fst (lag_features series_D 7)))%nat /\
  train_test_split (fst (lag_features series_D 7)) (snd (lag_features series_D 7))
    = inr (firstn 5 (fst (lag_features series_D 7)),
           skipn 5 (fst (lag_features series_D 7)),
           firstn 5 (snd (lag_features series_D 7)),
           skipn 5 (snd (lag_features series_D 7))).
Proof.
  split; [simpl; lia|].
  apply (chronological_split (fst (lag_features series_D 7))
           (snd (lag_features series_D 7))); [simpl; lia | reflexivity].
Defined.

(** Scenario D: seven feature rows are split into five training rows and
    two test rows, while [floor(0.2 * 7)] is 1. *)
Lemma split_of_seven_rows :
  exists X_train X_test y_train y_test,
    train_test_split (fst (lag_features series_D 7)) (snd (lag_features series_D 7))
      = inr (X_train, X_test, y_train, y_test) /\
    List.length (fst (lag_features series_D 7)) = 7%nat /\
    List.length X_train = 5%nat /\
    List.length X_test = 2%nat /\
    fifth_floor (List.length (fst (lag_features series_D 7))) = 1%nat /\
    List.length X_test <> fifth_floor (List.length (fst (lag_features series_D 7))).
Proof.
  do 4 eexists. split; [reflexivity|].
  repeat split; try reflexivity. discriminate.
Qed.

(* ================================================================== *)
(** * The forecast as a whole *)
(* ================================================================== *)

Section ForecastFacts.

Variable rng : Type.
Variable RandomState : Z -> rng.
Variable least_squares : matrix -> list Q -> result predictor.
Variable grow_tree : rng -> matrix -> list Q -> result predictor * rng.
Variable grow_forest : nat -> rng -> matrix -> list Q -> result predictor * rng.

(** Too short a series ends the forecast with the warning that asks for
    [2 * lag] values, before any feature is built. *)
Lemma forecast_insufficient_data model_name model lag df column g data :
  validate_numeric_column df column "прогнозирования" = None ->
  column_values df column = inr data ->
  (List.length data < 2 * lag)%nat ->
  open_forecast_plot rng RandomState least_squares grow_tree grow_forest
        model_name model lag df column g =
  (Warning ("Недостаточно данных для прогноза. Нужно минимум "
            ++ show_nat (lag * 2) ++ " значений"), g).
Proof.
  intros Hv Hc Hlen. unfold open_forecast_plot. rewrite Hv, Hc.
  replace (List.length data <? lag * 2)%nat with true
    by (symmetry; apply Nat.ltb_lt; lia).
  reflexivity.
Qed.

(** C2.  With [lag >= 1] and at least [2 * lag] values the loop yields
    [len - lag] rows and labels; row [i] is the window [series[i..i+lag)]
    and label [i] is [series[i+lag]].  With fewer than [2 * lag] values
    the forecast stops with the insufficient-data warning. *)
Theorem lag_features_and_guard :
  (forall data lag,
      (1 <= lag)%nat ->
      (2 * lag <= List.length data)%nat ->
      List.length (fst (lag_features data lag)) = (List.length data - lag)%nat /\
      List.length (snd (lag_features data lag)) = (List.length data - lag)%nat /\
      forall i,
        (i < List.length data - lag)%nat ->
        nth_error (fst (lag_features data lag)) i
          = Some (firstn lag (skipn i data)) /\
        List.length (firstn lag (skipn i data)) = lag /\
        nth_error (snd (lag_features data lag)) i = nth_error data (i + lag) /\
        nth_error data (i + lag) <> None) /\
  (forall model_name model lag df column g data,
      validate_numeric_column df column "прогнозирования" = None ->
      column_values df column = inr data ->
      (List.length data < 2 * lag)%nat ->
      open_forecast_plot rng RandomState least_squares grow_tree grow_forest
        model_name model lag df column g =
      (Warning ("Недостаточно данных для прогноза. Нужно минимум "
                ++ show_nat (lag * 2) ++ " значений"), g)).
Proof.
  split.
  - intros data lag _ _.
    destruct (lag_features_length data lag) as [HX Hy].
    split; [exact HX|]. split; [exact Hy|].
    intros i Hi. apply lag_features_rows. exact Hi.
  - intros. eapply forecast_insufficient_data; eassumption.
Qed.

(** A plotted run carries the R² that [r2_score] returns for its test
    values and predictions. *)
Lemma forecast_reports_r2 model_name model lag df column g run :
  fst (open_forecast_plot rng RandomState least_squares grow_tree grow_forest
        model_name model lag df column g) = Plotted run ->
  run_r2 run = r2_score (run_y_test run) (run_y_pred run).
Proof.
  unfold open_forecast_plot.
  destruct (validate_numeric_column df column _); [discriminate|].
  destruct (column_values df column) as [e | data]; [discriminate|].
  destruct (List.length data <? lag * 2)%nat; [discriminate|].
  destruct (lag_features data lag) as [X y].
  destruct (train_test_split X y) as [e | [[[X_train X_test] y_train] y_test]];
    [discriminate|].
  destruct (fit _ _ _ _ _ _ _ _ _) as [[e | predict] g']; [discriminate|].
  cbn [fst]. intros H. inversion H. reflexivity.
Qed.

Lemma r2_score_zero_variance y_true y_pred :
  (ss_tot y_true == 0)%Q ->
  r2_score y_true y_pred =
  if (List.length y_pred <? 2)%nat then NaN
  else if Qeq_bool (ss_res y_true y_pred) 0 then Fin 1 else Fin 0.
Proof.
  intros H. unfold r2_score. now rewrite (Qeq_eq_bool _ _ H).
Qed.


(** C9.  A forecast with least squares, or with a tree or forest seeded
    by an integer, gives the same outcome (test values, predictions,
    MAE, RMSE, R²) whatever the state of the global generator, and leaves
    that state as it found it; so a second run, started where the first
    one ended, repeats the first.  The three buttons are such
    forecasts. *)
Theorem forecast_deterministic :
  (forall model_name model lag df column g1 g2,
      seeded model ->
      fst (open_forecast_plot rng RandomState least_squares grow_tree grow_forest
        model_name model lag df column g1)
      = fst (open_forecast_plot rng RandomState least_squares grow_tree grow_forest
        model_name model lag df column g2) /\
      snd (open_forecast_plot rng RandomState least_squares grow_tree grow_forest
        model_name model lag df column g1) = g1) /\
  (forall model_name model lag df column g,
      seeded model ->
      fst (open_forecast_plot rng RandomState least_squares grow_tree grow_forest
        model_name model lag df column
        (snd (open_forecast_plot rng RandomState least_squares grow_tree grow_forest
                model_name model lag df column g)))
      = fst (open_forecast_plot rng RandomState least_squares grow_tree grow_forest
        model_name model lag df column g)) /\
  (forall df column g1 g2,
      fst (open_linear_regression_plot rng RandomState least_squares
             grow_tree grow_forest df column g1)
      = fst (open_linear_regression_plot rng RandomState least_squares
               grow_tree grow_forest df column g2) /\
      fst (open_random_forest_plot rng RandomState least_squares
             grow_tree grow_forest df column g1)
      = fst (open_random_forest_plot rng RandomState least_squares
               grow_tree grow_forest df column g2) /\
      fst (open_decision_tree_plot rng RandomState least_squares
             grow_tree grow_forest df column g1)
      = fst (open_decision_tree_plot rng RandomState least_squares
               grow_tree grow_forest df column g2)).
Proof.
  assert (General : forall model_name model lag df column g1 g2,
      seeded model ->
      fst (open_forecast_plot rng RandomState least_squares grow_tree grow_forest
        model_name model lag df column g1)
      = fst (open_forecast_plot rng RandomState least_squares grow_tree grow_forest
        model_name model lag df column g2) /\
      snd (open_forecast_plot rng RandomState least_squares grow_tree grow_forest
        model_name model lag df column g1) = g1).
  { intros model_name model lag df column g1 g2 Hseed.
    unfold open_forecast_plot.
    destruct (validate_numeric_column df column _); [split; reflexivity|].
    destruct (column_values df column) as [e | data]; [split; reflexivity|].
    destruct (List.length data <? lag * 2)%nat; [split; reflexivity|].
    destruct (lag_features data lag) as [X y].
    destruct (train_test_split X y) as [e | [[[X_train X_test] y_train] y_test]];
      [split; reflexivity|].
    destruct model as [| n [seed |] | [seed |]]; try contradiction; cbn [fit].
    - destruct (least_squares X_train y_train); split; reflexivity.
    - destruct (fst (grow_forest n (RandomState seed) X_train y_train));
        split; reflexivity.
    - destruct (fst (grow_tree (RandomState seed) X_train y_train));
        split; reflexivity. }
  split; [exact General|]. split.
  { intros model_name model lag df column g Hseed.
    apply (General model_name model lag df column _ g Hseed). }
  intros df column g1 g2.
  unfold open_linear_regression_plot, open_random_forest_plot,
    open_decision_tree_plot.
  repeat split; apply General; exact I.
Qed.

End ForecastFacts.

(** ** Concrete runs *)

Lemma lag_features_and_guard_witness :
  ((1 <= 7)%nat /\ (2 * 7 <= List.length series_D)%nat /\
   nth_error (fst (lag_features series_D 7)) 0 = Some (firstn 7 (skipn 0 series_D))) /\
  ((List.length (present (map volume scenario_A)) < 2 * 7)%nat /\
   open_forecast_plot unit (fun _ => tt) naive_least_squares naive_tree naive_forest
     "Линейная регрессия" LinearRegression 7 scenario_A "Объем воды (л)" tt
   = (Warning ("Недостаточно данных для прогноза. Нужно минимум "
               ++ show_nat (7 * 2) ++ " значений"), tt)).
Proof.
  destruct (lag_features_and_guard unit (fun _ => tt) naive_least_squares
              naive_tree naive_forest) as [Rows Guard].
  split.
  - assert (L1 : (1 <= 7)%nat) by lia.
    assert (L2 : (2 * 7 <= List.length series_D)%nat) by (simpl; lia).
    split; [exact L1|]. split; [exact L2|].
    destruct (Rows series_D 7%nat L1 L2) as [_ [_ Row]].
    apply (Row 0%nat). simpl. lia.
  - assert (L : (List.length (present (map volume scenario_A)) < 2 * 7)%nat)
      by (simpl; lia).
    split; [exact L|].
    apply (Guard "Линейная регрессия" LinearRegression 7%nat scenario_A
             "Объем воды (л)" tt (present (map volume scenario_A)));
      [reflexivity | reflexivity | exact L].
Defined.



Lemma forecast_deterministic_witness :
  seeded (DecisionTreeRegressor (Some 42%Z)) /\
  fst (open_forecast_plot Q inject_Z naive_least_squares toy_tree (fun _ => toy_tree)
         "Decision Tree" (DecisionTreeRegressor (Some 42%Z)) 7
         (frame_of series_D) "Объем воды (л)" 0%Q)
  = fst (open_forecast_plot Q inject_Z naive_least_squares toy_tree (fun _ => toy_tree)
           "Decision Tree" (DecisionTreeRegressor (Some 42%Z)) 7
           (frame_of series_D) "Объем воды (л)" 1%Q).
Proof.
  split; [exact I|].
  apply (proj1 (forecast_deterministic Q inject_Z naive_least_squares toy_tree
                  (fun _ => toy_tree))
           "Decision Tree" (DecisionTreeRegressor (Some 42%Z)) 7%nat
           (frame_of series_D) "Объем воды (л)" 0%Q 1%Q I).
Defined.

(** Without a seed the same forecast follows the global generator: the
    restriction to seeded estimators is what makes the runs agree. *)
Lemma unseeded_forecast_reads_generator :
  fst (open_forecast_plot Q inject_Z naive_least_squares toy_tree (fun _ => toy_tree)
         "Decision Tree" (DecisionTreeRegressor None) 7
         (frame_of series_D) "Объем воды (л)" 0%Q)
  <> fst (open_forecast_plot Q inject_Z naive_least_squares toy_tree (fun _ => toy_tree)
            "Decision Tree" (DecisionTreeRegressor None) 7
            (frame_of series_D) "Объем воды (л)" 1%Q).
Proof.
  intros H. apply (f_equal outcome_y_pred) in H. lazy in H. discriminate H.
Qed.

(* ================================================================== *)
(** * Correlation *)
(* ================================================================== *)

Lemma calculate_correlation_try_unfold (df : DataFrame) (col1 col2 : string) :
  calculate_correlation_try df col1 col2 =
  if (col1 =? "") || (col2 =? "")
  then ret (ErrorRecord "Не выбраны столбцы для анализа")
  else bind (encode_column df col1) (fun data1 =>
       bind (encode_column df col2) (fun data2 =>
       correlate col1 col2 data1 data2)).
Proof. reflexivity. Qed.

(** ** Masks and selections *)

Lemma mask_and_comm (m1 m2 : list bool) : mask_and m1 m2 = mask_and m2 m1.
Proof.
  revert m2. induction m1 as [| a m1 IH]; intros [| b m2]; simpl; try reflexivity.
  now rewrite IH, andb_comm.
Qed.

Lemma mask_and_map {A} (f g : A -> bool) (l : list A) :
  mask_and (map f l) (map g l) = map (fun r => f r && g r) l.
Proof. induction l as [| r l IH]; simpl; [reflexivity | now rewrite IH]. Qed.

Lemma select_map {A B} (c : A -> B) (p : A -> bool) (l : list A) :
  select (map c l) (map p l) = map c (filter p l).
Proof.
  induction l as [| r l IH]; simpl; [reflexivity|].
  destruct (p r); simpl; now rewrite IH.
Qed.

Lemma encode_column_shape (df : DataFrame) (col : string) (s : Series) :
  encode_column df col = inr s -> column_of df col s.
Proof.
  unfold encode_column, getitem, datetime_to_numeric.
  destruct (col =? "Время") eqn:Et.
  - intros H. inversion H.
    apply (column_float df col (fun r => Some (inject_Z (time r)))).
    intros r. unfold cell_present. now rewrite Et.
  - destruct (col =? "Активность") eqn:Ea.
    + intros H. inversion H. apply column_text.
      intros r. unfold cell_present. now rewrite Et, Ea.
    + destruct (col =? "Объем воды (л)") eqn:Ev; [| discriminate].
      intros H. inversion H. apply column_float.
      intros r. unfold cell_present. now rewrite Et, Ea, Ev.
Qed.

Lemma column_of_notna df col s :
  column_of df col s -> notna s = map (fun r => cell_present r col) df.
Proof.
  intros [c Hc | c Hc]; simpl; rewrite map_map; apply map_ext; exact Hc.
Qed.

Lemma column_of_select_len df col s (p : Row -> bool) :
  column_of df col s ->
  len (select_series s (map p df)) = List.length (filter p df).
Proof.
  intros [c Hc | c Hc]; simpl; now rewrite select_map, length_map.
Qed.

(** The program's count of clean cells is the number of valid rows. *)
Lemma clean_length_valid_rows df col1 col2 data1 data2 :
  column_of df col1 data1 ->
  column_of df col2 data2 ->
  len (select_series data1 (mask_and (notna data1) (notna data2)))
  = List.length (valid_rows df col1 col2).
Proof.
  intros C1 C2.
  rewrite (column_of_notna _ _ _ C1), (column_of_notna _ _ _ C2), mask_and_map.
  apply (column_of_select_len df col1 data1 _ C1).
Qed.

Lemma encode_column_known (df : DataFrame) (col : string) :
  In col columns -> exists s, encode_column df col = inr s.
Proof.
  intros [E | [E | [E | []]]]; subst col; eexists; reflexivity.
Qed.

Lemma encode_column_unknown (df : DataFrame) (col : string) :
  ~ In col columns -> encode_column df col = inl (KeyError col).
Proof.
  intros H. unfold encode_column, getitem.
  destruct (String.eqb_spec col "Время") as [E | _].
  { exfalso. apply H. subst. simpl. auto. }
  destruct (String.eqb_spec col "Активность") as [E | _].
  { exfalso. apply H. subst. simpl. auto. }
  destruct (String.eqb_spec col "Объем воды (л)") as [E | _].
  { exfalso. apply H. subst. simpl. auto. }
  reflexivity.
Qed.

Lemma known_column_nonempty (col : string) : In col columns -> (col =? "") = false.
Proof. intros [E | [E | [E | []]]]; subst col; reflexivity. Qed.



(** C10.  [calculate_correlation] always returns a record: the error
    record or the full one.  Whatever the body raises comes back as the
    error record with the exception's text; an empty column name and a
    name that is no column of the frame are two such cases. *)
Theorem calculate_correlation_never_raises (df : DataFrame) (col1 col2 : string) :
  ((exists msg, calculate_correlation df col1 col2 = ErrorRecord msg) \/
   (exists rec, calculate_correlation df col1 col2 = Computed rec)) /\
  (forall e,
      calculate_correlation_try df col1 col2 = inl e ->
      calculate_correlation df col1 col2 = ErrorRecord (str e)) /\
  (col1 = "" \/ col2 = "" ->
   calculate_correlation df col1 col2 = ErrorRecord "Не выбраны столбцы для анализа") /\
  (col1 <> "" -> col2 <> "" -> ~ In col1 columns ->
   calculate_correlation df col1 col2 = ErrorRecord ("'" ++ col1 ++ "'")).
Proof.
  split; [| split; [| split]].
  - destruct (calculate_correlation df col1 col2) as [msg | rec];
      [left | right]; eexists; reflexivity.
  - intros e He. unfold calculate_correlation. now rewrite He.
  - intros Hempty. unfold calculate_correlation.
    rewrite calculate_correlation_try_unfold.
    replace ((col1 =? "") || (col2 =? "")) with true; [reflexivity|].
    symmetry. apply orb_true_iff.
    destruct Hempty as [-> | ->]; [left | right]; reflexivity.
  - intros N1 N2 Hunknown. unfold calculate_correlation.
    rewrite calculate_correlation_try_unfold.
    apply String.eqb_neq in N1, N2. rewrite N1, N2. cbn [orb].
    rewrite (encode_column_unknown df col1 Hunknown). reflexivity.
Qed.

Lemma calculate_correlation_never_raises_witness :
  calculate_correlation_try scenario_A "Активность" "Объем воды (л)"
  = inl (ValueError "could not convert string to float: 'питьё'") /\
  calculate_correlation scenario_A "Активность" "Объем воды (л)"
  = ErrorRecord "could not convert string to float: 'питьё'" /\
  calculate_correlation scenario_A "" "Объем воды (л)"
  = ErrorRecord "Не выбраны столбцы для анализа" /\
  calculate_correlation scenario_A "Температура" "Объем воды (л)"
  = ErrorRecord "'Температура'".
Proof.
  destruct (calculate_correlation_never_raises scenario_A "Активность" "Объем воды (л)")
    as [_ [Caught _]].
  destruct (calculate_correlation_never_raises scenario_A "" "Объем воды (л)")
    as [_ [_ [Empty _]]].
  destruct (calculate_correlation_never_raises scenario_A "Температура" "Объем воды (л)")
    as [_ [_ [_ Unknown]]].
  assert (Raised : calculate_correlation_try scenario_A "Активность" "Объем воды (л)"
                   = inl (ValueError "could not convert string to float: 'питьё'"))
    by reflexivity.
  split; [exact Raised|]. split; [exact (Caught _ Raised)|]. split.
  - apply Empty. left. reflexivity.
  - apply Unknown.
    + discriminate.
    + discriminate.
    + simpl. intros [E | [E | [E | []]]]; discriminate E.
Defined.

(** ** Symmetry of Pearson's r *)

Lemma valid_pairs_swap (x y : list (option Q)) :
  valid_pairs y x = map swap (valid_pairs x y).
Proof.
  revert y. induction x as [| [a |] x IH]; intros [| [b |] y]; simpl;
    try reflexivity; try apply IH.
  now rewrite IH.
Qed.

Lemma codev_swap (ps : list (Q * Q)) (mx my : Q) :
  (codev (map swap ps) my mx == codev ps mx my)%Q.
Proof.
  unfold codev. induction ps as [| p ps IH]; simpl.
  - reflexivity.
  - apply Qplus_comp; [apply Qmult_comm | exact IH].
Qed.

Lemma fdiv_by_deviations_swap (c a b : R) :
  fdiv (fdiv (Fin c) (fsqrt (Fin a))) (fsqrt (Fin b))
  = fdiv (fdiv (Fin c) (fsqrt (Fin b))) (fsqrt (Fin a)).
Proof.
  destruct (fsqrt_Fin_cases a) as [-> | [sa [Ha ->]]];
    destruct (fsqrt_Fin_cases b) as [-> | [sb [Hb ->]]].
  - reflexivity.
  - rewrite !fdiv_NaN_r. reflexivity.
  - rewrite !fdiv_NaN_r. reflexivity.
  - apply fdiv_fdiv_swap; assumption.
Qed.

Lemma pearson_swap (ps : list (Q * Q)) : pearson (map swap ps) = pearson ps.
Proof.
  unfold pearson. cbv zeta. rewrite length_map.
  destruct (List.length ps <? 2)%nat; [reflexivity|].
  assert (F : map fst (map swap ps) = map snd ps)
    by (rewrite map_map; now apply map_ext).
  assert (S : map snd (map swap ps) = map fst ps)
    by (rewrite map_map; now apply map_ext).
  assert (FF : map (fun p => (fst p, fst p)) (map swap ps)
               = map (fun p => (snd p, snd p)) ps)
    by (rewrite map_map; now apply map_ext).
  assert (SS : map (fun p => (snd p, snd p)) (map swap ps)
               = map (fun p => (fst p, fst p)) ps)
    by (rewrite map_map; now apply map_ext).
  rewrite F, S, FF, SS. f_equal.
  unfold of_Q. rewrite fdiv_by_deviations_swap. do 3 f_equal.
  apply Qeq_eqR. apply Qmult_comp; [apply codev_swap | reflexivity].
Qed.

Lemma corr_swap (a b : Series) (r : float) :
  corr a b = inr r -> corr b a = inr r.
Proof.
  unfold corr.
  destruct (to_float_array a) as [ea | x]; [discriminate|].
  destruct (to_float_array b) as [eb | y]; [discriminate|].
  unfold bind, ret. intros H. injection H as <-. f_equal.
  rewrite (valid_pairs_swap x y).
  destruct (valid_pairs x y) as [| p ps]; [reflexivity|].
  exact (pearson_swap (p :: ps)).
Qed.

Lemma correlate_swap df col1 col2 data1 data2 rec :
  column_of df col1 data1 ->
  column_of df col2 data2 ->
  correlate col1 col2 data1 data2 = inr (Computed rec) ->
  exists rec',
    correlate col2 col1 data2 data1 = inr (Computed rec') /\
    corr_r rec' = corr_r rec /\
    corr_n rec' = corr_n rec /\
    corr_strength rec' = corr_strength rec /\
    corr_interpretation rec' = corr_interpretation rec /\
    corr_p rec' = corr_p rec /\
    corr_col1 rec' = corr_col2 rec /\
    corr_col2 rec' = corr_col1 rec.
Proof.
  intros C1 C2. unfold correlate. cbv zeta.
  rewrite (mask_and_comm (notna data2) (notna data1)).
  assert (L : len (select_series data2 (mask_and (notna data1) (notna data2)))
              = len (select_series data1 (mask_and (notna data1) (notna data2)))).
  { rewrite (column_of_notna _ _ _ C1), (column_of_notna _ _ _ C2), mask_and_map.
    rewrite (column_of_select_len df col1 data1 _ C1).
    apply (column_of_select_len df col2 data2 _ C2). }
  rewrite L.
  destruct (len (select_series data1 (mask_and (notna data1) (notna data2))) <? 2)%nat;
    [discriminate|].
  destruct (corr (select_series data1 (mask_and (notna data1) (notna data2)))
                 (select_series data2 (mask_and (notna data1) (notna data2))))
    as [e | r] eqn:E; [discriminate|].
  rewrite (corr_swap _ _ _ E). cbn [bind ret].
  intros H. inversion H. eexists. split; [reflexivity|]. repeat split.
Qed.



(* ================================================================== *)
(** * Which columns can be summarised *)
(* ================================================================== *)

Lemma length_present_nil (l : list (option Q)) :
  (List.length (present l) =? 0)%nat = true <-> present l = [].
Proof.
  destruct (present l); simpl; split; intros H; try reflexivity; discriminate H.
Qed.

Lemma validate_numeric_column_ok (df : DataFrame) (column action : string) :
  validate_numeric_column df column action = None <->
  column = "Объем воды (л)" /\ present (map volume df) <> [].
Proof.
  unfold validate_numeric_column, getitem.
  destruct (String.eqb_spec column "Время") as [E | Nt].
  { subst. cbn. split; [discriminate | intros [E _]; discriminate E]. }
  destruct (String.eqb_spec column "Активность") as [E | Na].
  { subst. cbn. split; [discriminate | intros [E _]; discriminate E]. }
  destruct (String.eqb_spec column "Объем воды (л)") as [E | Nv].
  - subst. unfold ret. cbn [negb is_numeric_dtype dropna select_series notna len].
    rewrite length_select_present.
    destruct (present (map volume df)) as [| x data]; cbn.
    + split; [discriminate | intros [_ H]; now contradiction H].
    + split; [intros _; split; [reflexivity | discriminate] | reflexivity].
  - split; [discriminate | intros [E _]; contradiction].
Qed.

Lemma calculate_statistics_ok (df : DataFrame) (column : string) :
  (exists s, calculate_statistics df column = inr s) <->
  column = "Объем воды (л)" /\ present (map volume df) <> [].
Proof.
  split.
  - intros [s H]. apply calculate_statistics_inv in H as [E [N _]]. now split.
  - intros [-> N]. rewrite calculate_statistics_volume.
    destruct (present (map volume df)) as [| x data]; [now contradiction N|].
    eexists. reflexivity.
Qed.

(** X1.  [calculate_statistics] returns a summary exactly for the numeric
    column when it has at least one value; every failure is a [ValueError]
    whose text starts with the fixed prefix, and a name that is no column
    of the frame is reported as not found. *)
Theorem calculate_statistics_outcome (df : DataFrame) (column : string) :
  ((exists s, calculate_statistics df column = inr s) <->
   column = "Объем воды (л)" /\ present (map volume df) <> []) /\
  (forall e,
      calculate_statistics df column = inl e ->
      exists msg, e = ValueError ("Ошибка при расчете статистики: " ++ msg)) /\
  (~ In column columns ->
   calculate_statistics df column
   = inl (ValueError ("Ошибка при расчете статистики: Столбец '"
                      ++ column ++ "' не найден в данных"))).
Proof.
  split; [apply calculate_statistics_ok|]. split.
  - intros e. unfold calculate_statistics.
    destruct (calculate_statistics_try df column) as [e' | s]; [| discriminate].
    intros H. injection H as <-. eexists. reflexivity.
  - intros Hno. unfold calculate_statistics, calculate_statistics_try.
    replace (existsb (String.eqb column) columns) with false; [reflexivity|].
    symmetry. apply not_true_is_false. intros Hex.
    apply existsb_exists in Hex as [c [Hin Heq]].
    apply String.eqb_eq in Heq. subst c. contradiction.
Qed.

Lemma calculate_statistics_outcome_witness :
  (exists s, calculate_statistics scenario_A "Объем воды (л)" = inr s) /\
  calculate_statistics scenario_A "Температура"
  = inl (ValueError
           "Ошибка при расчете статистики: Столбец 'Температура' не найден в данных") /\
  calculate_statistics scenario_A "Время"
  = inl (ValueError
           "Ошибка при расчете статистики: Столбец 'Время' не является числовым.").
Proof.
  destruct (calculate_statistics_outcome scenario_A "Объем воды (л)") as [Ok _].
  destruct (calculate_statistics_outcome scenario_A "Температура") as [_ [_ Unknown]].
  split; [| split].
  - apply Ok. split; [reflexivity | discriminate].
  - apply Unknown. simpl. intros [E | [E | [E | []]]]; discriminate E.
  - reflexivity.
Defined.

(** X2.  The check in front of every single-column plot and forecast
    passes exactly when [calculate_statistics] succeeds on that column. *)
Theorem validation_matches_statistics (df : DataFrame) (column action : string) :
  validate_numeric_column df column action = None <->
  exists s, calculate_statistics df column = inr s.
Proof.
  rewrite validate_numeric_column_ok, calculate_statistics_ok. reflexivity.
Qed.

Lemma validation_matches_statistics_witness :
  validate_numeric_column scenario_A "Объем воды (л)" "прогнозирования" = None /\
  exists s, calculate_statistics scenario_A "Объем воды (л)" = inr s.
Proof.
  assert (V : validate_numeric_column scenario_A "Объем воды (л)" "прогнозирования"
              = None) by reflexivity.
  split; [exact V|].
  apply (proj1 (validation_matches_statistics scenario_A "Объем воды (л)"
                  "прогнозирования") V).
Defined.

(* ================================================================== *)
(** * Order statistics *)
(* ================================================================== *)

Section OrderFacts.

Local Open Scope Q_scope.

Lemma Qle_bool_false (x y : Q) : Qle_bool x y = false -> y <= x.
Proof.
  intros H. apply Qlt_le_weak, Qnot_le_lt. intros L.
  apply Qle_bool_iff in L. congruence.
Qed.

Lemma In_insert (x y : Q) (l : list Q) :
  In y (Stats.insert x l) <-> y = x \/ In y l.
Proof.
  induction l as [| z l IH]; simpl.
  - intuition.
  - destruct (Qle_bool x z); simpl; [intuition | rewrite IH; intuition].
Qed.

Lemma In_sort (y : Q) (l : list Q) : In y (Stats.sort l) <-> In y l.
Proof.
  unfold Stats.sort. induction l as [| x l IH]; simpl; [reflexivity|].
  rewrite In_insert, IH. intuition.
Qed.

Lemma length_insert (x : Q) (l : list Q) :
  List.length (Stats.insert x l) = S (List.length l).
Proof.
  induction l as [| z l IH]; simpl; [reflexivity|].
  destruct (Qle_bool x z); simpl; [reflexivity | now rewrite IH].
Qed.

Lemma length_sort (l : list Q) : List.length (Stats.sort l) = List.length l.
Proof.
  unfold Stats.sort. induction l as [| x l IH]; simpl; [reflexivity|].
  now rewrite length_insert, IH.
Qed.

Lemma insert_ascending (x : Q) (l : list Q) :
  ascending l -> ascending (Stats.insert x l).
Proof.
  induction l as [| z l IH]; simpl.
  - intros _. split; [intros y [] | exact I].
  - intros [Hz Hl]. destruct (Qle_bool x z) eqn:E; simpl.
    + apply Qle_bool_iff in E. split; [| split; assumption].
      intros y [<- | Hy]; [exact E|].
      apply Qle_trans with z; [exact E | apply Hz; exact Hy].
    + apply Qle_bool_false in E. split; [| apply IH; exact Hl].
      intros y Hy. apply In_insert in Hy as [-> | Hy]; [exact E | apply Hz; exact Hy].
Qed.

Lemma sort_ascending (l : list Q) : ascending (Stats.sort l).
Proof.
  unfold Stats.sort. induction l as [| x l IH]; simpl; [exact I|].
  apply insert_ascending. exact IH.
Qed.

Lemma ascending_nth (s : list Q) :
  ascending s ->
  forall i j, (i <= j)%nat -> (j < List.length s)%nat -> nth i s 0 <= nth j s 0.
Proof.
  induction s as [| x s IH]; intros Hs i j Hij Hj; [simpl in Hj; lia|].
  destruct Hs as [Hx Hs]. destruct i as [| i], j as [| j]; simpl in *.
  - apply Qle_refl.
  - apply Hx. apply nth_In. lia.
  - lia.
  - apply IH; [exact Hs | lia | lia].
Qed.

(** ** Minimum and maximum *)

Lemma fold_min_spec (l : list Q) (m : Q) :
  let r := fold_left (fun m y => if Qle_bool y m then y else m) l m in
  r <= m /\ (forall x, In x l -> r <= x) /\ In r (m :: l).
Proof.
  revert m. induction l as [| y l IH]; intros m; simpl.
  - split; [apply Qle_refl|]. split; [intros x [] | now left].
  - destruct (Qle_bool y m) eqn:E.
    + apply Qle_bool_iff in E. destruct (IH y) as [H1 [H2 H3]].
      split; [apply Qle_trans with y; assumption|]. split.
      * intros x [<- | Hx]; [exact H1 | apply H2; exact Hx].
      * right. exact H3.
    + apply Qle_bool_false in E. destruct (IH m) as [H1 [H2 H3]].
      split; [exact H1|]. split.
      * intros x [<- | Hx]; [apply Qle_trans with m; assumption | apply H2; exact Hx].
      * destruct H3 as [H3 | H3]; [now left | right; right; exact H3].
Qed.

Lemma fold_max_spec (l : list Q) (m : Q) :
  let r := fold_left (fun m y => if Qle_bool m y then y else m) l m in
  m <= r /\ (forall x, In x l -> x <= r) /\ In r (m :: l).
Proof.
  revert m. induction l as [| y l IH]; intros m; simpl.
  - split; [apply Qle_refl|]. split; [intros x [] | now left].
  - destruct (Qle_bool m y) eqn:E.
    + apply Qle_bool_iff in E. destruct (IH y) as [H1 [H2 H3]].
      split; [apply Qle_trans with y; assumption|]. split.
      * intros x [<- | Hx]; [exact H1 | apply H2; exact Hx].
      * right. exact H3.
    + apply Qle_bool_false in E. destruct (IH m) as [H1 [H2 H3]].
      split; [exact H1|]. split.
      * intros x [<- | Hx]; [apply Qle_trans with m; assumption | apply H2; exact Hx].
      * destruct H3 as [H3 | H3]; [now left | right; right; exact H3].
Qed.

Lemma qmin_le (l : list Q) (x : Q) : In x l -> Stats.qmin l <= x.
Proof.
  destruct l as [| m l]; [intros []|]. simpl.
  destruct (fold_min_spec l m) as [H1 [H2 _]].
  intros [<- | Hx]; [exact H1 | apply H2; exact Hx].
Qed.

Lemma qmax_ge (l : list Q) (x : Q) : In x l -> x <= Stats.qmax l.
Proof.
  destruct l as [| m l]; [intros []|]. simpl.
  destruct (fold_max_spec l m) as [H1 [H2 _]].
  intros [<- | Hx]; [exact H1 | apply H2; exact Hx].
Qed.

Lemma qmin_In (l : list Q) : l <> [] -> In (Stats.qmin l) l.
Proof.
  destruct l as [| m l]; [intros H; now contradiction H|]. intros _.
  exact (proj2 (proj2 (fold_min_spec l m))).
Qed.

Lemma qmax_In (l : list Q) : l <> [] -> In (Stats.qmax l) l.
Proof.
  destruct l as [| m l]; [intros H; now contradiction H|]. intros _.
  exact (proj2 (proj2 (fold_max_spec l m))).
Qed.

Lemma nth_sort_between (l : list Q) (i : nat) :
  (i < List.length l)%nat ->
  Stats.qmin l <= nth i (Stats.sort l) 0 <= Stats.qmax l.
Proof.
  intros Hi.
  assert (Hin : In (nth i (Stats.sort l) 0) l)
    by (apply In_sort, nth_In; rewrite length_sort; exact Hi).
  split; [apply qmin_le | apply qmax_ge]; exact Hin.
Qed.

End OrderFacts.

(* ================================================================== *)
(** * Quantiles *)
(* ================================================================== *)

Section QuantileFacts.

Local Open Scope Q_scope.

Lemma quantile_interpolate (l : list Q) (q : Q) :
  Stats.quantile l q
  = interpolate (Stats.sort l) (q * inject_Z (Z.of_nat (List.length l) - 1)).
Proof. unfold Stats.quantile, interpolate. now rewrite length_sort. Qed.

Lemma inside_floor (s : list Q) (pos : Q) :
  inside s pos ->
  (0 <= Qfloor pos <= Z.of_nat (List.length s) - 1)%Z /\
  0 <= pos - inject_Z (Qfloor pos) /\ pos - inject_Z (Qfloor pos) <= 1.
Proof.
  intros [H0 H1]. split; [split|].
  - rewrite <- (Qfloor_Z 0). apply Qfloor_resp_le. exact H0.
  - rewrite <- (Qfloor_Z (Z.of_nat (List.length s) - 1)).
    apply Qfloor_resp_le. exact H1.
  - pose proof (Qfloor_le pos) as Hlo. pose proof (Qlt_floor pos) as Hhi.
    rewrite inject_Z_plus in Hhi. change (inject_Z 1) with 1 in Hhi.
    split; Lqa.lra.
Qed.

(** The interpolated value lies between the two order statistics around
    the position. *)
Lemma interpolate_between (s : list Q) (pos : Q) :
  ascending s -> inside s pos ->
  let lo := Z.to_nat (Qfloor pos) in
  let hi := Nat.min (lo + 1) (List.length s - 1) in
  (lo <= hi)%nat /\ (hi < List.length s)%nat /\
  nth lo s 0 <= interpolate s pos <= nth hi s 0.
Proof.
  intros Hs Hin lo hi.
  destruct (inside_floor s pos Hin) as [[F0 F1] [Fr0 Fr1]].
  assert (Hlo : (lo <= List.length s - 1)%nat) by (unfold lo; lia).
  assert (Hlen : (0 < List.length s)%nat) by lia.
  assert (Hlh : (lo <= hi)%nat) by (unfold hi; lia).
  assert (Hhi : (hi < List.length s)%nat) by (unfold hi; lia).
  split; [exact Hlh|]. split; [exact Hhi|].
  pose proof (ascending_nth s Hs lo hi Hlh Hhi) as Hord.
  unfold interpolate. fold lo. fold hi.
  set (a := nth lo s 0) in *. set (b := nth hi s 0) in *.
  set (f := pos - inject_Z (Qfloor pos)) in *.
  split; Lqa.nra.
Qed.

(** Interpolation is monotone in the position. *)
Lemma interpolate_monotone (s : list Q) (p p' : Q) :
  ascending s -> inside s p -> inside s p' -> p <= p' ->
  interpolate s p <= interpolate s p'.
Proof.
  intros Hs Hp Hp' Hpp.
  destruct (interpolate_between s p Hs Hp) as [Hlh [Hhi [Hlow Hup]]].
  destruct (interpolate_between s p' Hs Hp') as [Hlh' [Hhi' [Hlow' Hup']]].
  destruct (inside_floor s p Hp) as [[F0 F1] [Fr0 Fr1]].
  destruct (inside_floor s p' Hp') as [[F0' F1'] [Fr0' Fr1']].
  pose proof (Qfloor_resp_le p p' Hpp) as Hfl.
  destruct (Z.eq_dec (Qfloor p) (Qfloor p')) as [E | N].
  - unfold interpolate in *. rewrite <- E in *.
    set (lo := Z.to_nat (Qfloor p)) in *.
    set (hi := Nat.min (lo + 1) (List.length s - 1)) in *.
    pose proof (ascending_nth s Hs lo hi Hlh Hhi) as Hord.
    set (a := nth lo s 0) in *. set (b := nth hi s 0) in *.
    set (z := inject_Z (Qfloor p)) in *.
    Lqa.nra.
  - apply Qle_trans with (nth (Nat.min (Z.to_nat (Qfloor p) + 1) (List.length s - 1)) s 0);
      [exact Hup|].
    apply Qle_trans with (nth (Z.to_nat (Qfloor p')) s 0); [| exact Hlow'].
    apply ascending_nth; [exact Hs | lia | lia].
Qed.

Lemma quantile_inside (l : list Q) (q : Q) :
  l <> [] -> 0 <= q <= 1 ->
  inside (Stats.sort l) (q * inject_Z (Z.of_nat (List.length l) - 1)).
Proof.
  intros Hl [Hq0 Hq1]. unfold inside. rewrite length_sort.
  assert (Hn : 0 <= inject_Z (Z.of_nat (List.length l) - 1)).
  { change 0 with (inject_Z 0). rewrite <- Zle_Qle.
    destruct l; [now contradiction Hl | simpl List.length; lia]. }
  set (m := inject_Z (Z.of_nat (List.length l) - 1)) in *.
  split; Lqa.nra.
Qed.

Lemma quantile_monotone (l : list Q) (q q' : Q) :
  l <> [] -> 0 <= q -> q <= q' -> q' <= 1 ->
  Stats.quantile l q <= Stats.quantile l q'.
Proof.
  intros Hl H0 Hqq H1. rewrite !quantile_interpolate.
  assert (Hn : 0 <= inject_Z (Z.of_nat (List.length l) - 1)).
  { change 0 with (inject_Z 0). rewrite <- Zle_Qle.
    destruct l; [now contradiction Hl | simpl List.length; lia]. }
  apply interpolate_monotone.
  - apply sort_ascending.
  - apply quantile_inside; [exact Hl | split; [exact H0 | Lqa.lra]].
  - apply quantile_inside; [exact Hl | split; [Lqa.lra | exact H1]].
  - set (m := inject_Z (Z.of_nat (List.length l) - 1)) in *. Lqa.nra.
Qed.

Lemma quantile_between_min_max (l : list Q) (q : Q) :
  l <> [] -> 0 <= q <= 1 ->
  Stats.qmin l <= Stats.quantile l q <= Stats.qmax l.
Proof.
  intros Hl Hq. rewrite quantile_interpolate.
  destruct (interpolate_between (Stats.sort l) _ (sort_ascending l)
              (quantile_inside l q Hl Hq)) as [Hlh [Hhi [Hlow Hup]]].
  pose proof (length_sort l) as HL.
  split.
  - eapply Qle_trans; [| exact Hlow]. apply nth_sort_between. lia.
  - eapply Qle_trans; [exact Hup|]. apply nth_sort_between. lia.
Qed.

End QuantileFacts.

Section MedianFacts.

Local Open Scope Q_scope.

Lemma half_position_even (k : nat) :
  let pos := (50 # 100) * inject_Z (Z.of_nat (2 * S k) - 1) in
  Qfloor pos = Z.of_nat k /\ pos - inject_Z (Qfloor pos) == 1 # 2.
Proof.
  intros pos.
  assert (F : Qfloor pos = Z.of_nat k).
  { unfold pos, Qfloor. cbn [Qmult inject_Z Qnum Qden].
    change (Z.pos (100 * 1)) with 100%Z.
    Z.to_euclidean_division_equations. lia. }
  split; [exact F|]. rewrite F. unfold pos.
  replace (Z.of_nat (2 * S k) - 1)%Z with (2 * Z.of_nat k + 1)%Z by lia.
  rewrite inject_Z_plus, inject_Z_mult.
  change (inject_Z 2) with 2. change (inject_Z 1) with 1.
  generalize (inject_Z (Z.of_nat k)). intros x. Lqa.lra.
Qed.

Lemma half_position_odd (k : nat) :
  let pos := (50 # 100) * inject_Z (Z.of_nat (2 * k + 1) - 1) in
  Qfloor pos = Z.of_nat k /\ pos - inject_Z (Qfloor pos) == 0.
Proof.
  intros pos.
  assert (F : Qfloor pos = Z.of_nat k).
  { unfold pos, Qfloor. cbn [Qmult inject_Z Qnum Qden].
    change (Z.pos (100 * 1)) with 100%Z.
    Z.to_euclidean_division_equations. lia. }
  split; [exact F|]. rewrite F. unfold pos.
  replace (Z.of_nat (2 * k + 1) - 1)%Z with (2 * Z.of_nat k)%Z by lia.
  rewrite inject_Z_mult. change (inject_Z 2) with 2.
  generalize (inject_Z (Z.of_nat k)). intros x. Lqa.lra.
Qed.

(** The second quartile is the median. *)
Lemma median_is_half_quantile (l : list Q) :
  Stats.quantile l (50 # 100) == Stats.median l.
Proof.
  unfold Stats.quantile, Stats.median.
  destruct (Nat.even (List.length l)) eqn:E.
  - apply Nat.even_spec in E as [k Hk]. destruct k as [| k].
    + destruct l; [| simpl in Hk; discriminate Hk]. vm_compute. reflexivity.
    + rewrite Hk. destruct (half_position_even k) as [F Fr].
      cbv zeta in F, Fr. rewrite F, Nat2Z.id.
      replace (2 * S k / 2)%nat with (S k)
        by (apply (Nat.div_unique (2 * S k) 2 (S k) 0); lia).
      replace (Nat.min (k + 1) (2 * S k - 1)) with (S k) by lia.
      replace (S k - 1)%nat with k by lia.
      rewrite F in Fr. rewrite Fr.
      field.
  - assert (O : Nat.odd (List.length l) = true)
      by (rewrite <- Nat.negb_even, E; reflexivity).
    apply Nat.odd_spec in O as [k Hk]. rewrite Hk.
    destruct (half_position_odd k) as [F Fr].
    cbv zeta in F, Fr. rewrite F, Nat2Z.id.
    replace ((2 * k + 1) / 2)%nat with k
      by (apply (Nat.div_unique (2 * k + 1) 2 k 1); lia).
    rewrite F in Fr. rewrite Fr.
    ring.
Qed.

(** ** Sums against bounds *)

Lemma qsum_bounds (l : list Q) (lo hi : Q) :
  (forall x, In x l -> lo <= x <= hi) ->
  lo * qlen l <= qsum l <= hi * qlen l.
Proof.
  unfold qlen. induction l as [| x l IH]; intros H.
  - simpl. change (inject_Z 0) with 0. split; Lqa.lra.
  - assert (Hx : lo <= x <= hi) by (apply H; now left).
    assert (Hl : forall y, In y l -> lo <= y <= hi) by (intros y Hy; apply H; now right).
    specialize (IH Hl).
    change (qsum (x :: l)) with (x + qsum l).
    replace (Z.of_nat (List.length (x :: l))) with (Z.of_nat (List.length l) + 1)%Z
      by (simpl List.length; lia).
    rewrite inject_Z_plus. change (inject_Z 1) with 1.
    generalize dependent (inject_Z (Z.of_nat (List.length l))).
    intros n IH. generalize dependent (qsum l). intros t IH. Lqa.nra.
Qed.

Lemma qlen_pos (l : list Q) : l <> [] -> 0 < qlen l.
Proof.
  intros H. unfold qlen. change 0 with (inject_Z 0). rewrite <- Zlt_Qlt.
  destruct l; [now contradiction H | simpl List.length; lia].
Qed.

Lemma qmean_bounds (l : list Q) (lo hi : Q) :
  l <> [] ->
  (forall x, In x l -> lo <= x <= hi) ->
  lo <= qmean l <= hi.
Proof.
  intros Hl H. pose proof (qlen_pos l Hl) as Hn.
  destruct (qsum_bounds l lo hi H) as [H1 H2]. unfold qmean.
  split.
  - apply Qle_shift_div_l; assumption.
  - apply Qle_shift_div_r; assumption.
Qed.

Lemma qmean_times_count (l : list Q) : l <> [] -> qmean l * qlen l == qsum l.
Proof.
  intros Hl. pose proof (qlen_pos l Hl) as Hn. unfold qmean.
  field. intros Z. rewrite Z in Hn. discriminate Hn.
Qed.

End MedianFacts.

(* ================================================================== *)
(** * What every summary satisfies *)
(* ================================================================== *)

Section SummaryFacts.

Local Open Scope Q_scope.

Lemma summarize_order (data : list Q) :
  data <> [] ->
  let s := summarize data in
  stat_min s <= stat_q1 s /\
  stat_q1 s <= stat_q2 s /\
  stat_q2 s <= stat_q3 s /\
  stat_q3 s <= stat_max s /\
  stat_q2 s == stat_median s /\
  0 <= stat_iqr s /\
  stat_outlier_lower s <= stat_q1 s /\
  stat_q3 s <= stat_outlier_upper s.
Proof.
  intros Hd.
  cbv [summarize stat_min stat_q1 stat_q2 stat_q3 stat_max stat_median stat_iqr
       stat_outlier_lower stat_outlier_upper].
  assert (H12 : Stats.quantile data (25 # 100) <= Stats.quantile data (50 # 100))
    by (apply quantile_monotone; [exact Hd | | |]; Lqa.lra).
  assert (H23 : Stats.quantile data (50 # 100) <= Stats.quantile data (75 # 100))
    by (apply quantile_monotone; [exact Hd | | |]; Lqa.lra).
  assert (B1 : Stats.qmin data <= Stats.quantile data (25 # 100) <= Stats.qmax data)
    by (apply quantile_between_min_max; [exact Hd | split; Lqa.lra]).
  assert (B3 : Stats.qmin data <= Stats.quantile data (75 # 100) <= Stats.qmax data)
    by (apply quantile_between_min_max; [exact Hd | split; Lqa.lra]).
  pose proof (median_is_half_quantile data) as Hm.
  repeat split; try tauto; try exact Hm; Lqa.lra.
Qed.

Lemma median_nonneg (l : list Q) :
  l <> [] -> (forall x, In x l -> 0 <= x) -> 0 <= Stats.median l.
Proof.
  intros Hl H. rewrite <- median_is_half_quantile.
  apply Qle_trans with (Stats.qmin l).
  - apply H. apply qmin_In. exact Hl.
  - apply quantile_between_min_max; [exact Hl | split; Lqa.lra].
Qed.

Lemma summarize_basics (data : list Q) :
  data <> [] ->
  let s := summarize data in
  stat_count s = List.length data /\
  (1 <= stat_count s)%nat /\
  stat_mean s * inject_Z (Z.of_nat (stat_count s)) == stat_sum s /\
  stat_min s <= stat_mean s <= stat_max s /\
  stat_min s <= stat_median s <= stat_max s /\
  0 <= stat_range s /\
  0 <= stat_mad_mean s /\
  0 <= stat_mad_median s.
Proof.
  intros Hd.
  cbv [summarize stat_count stat_mean stat_sum stat_min stat_max stat_median
       stat_range stat_mad_mean stat_mad_median].
  assert (Hmean : Stats.qmin data <= qmean data <= Stats.qmax data).
  { apply qmean_bounds; [exact Hd|]. intros x Hx.
    split; [apply qmin_le | apply qmax_ge]; exact Hx. }
  assert (Hmed : Stats.qmin data <= Stats.median data <= Stats.qmax data).
  { rewrite <- median_is_half_quantile.
    apply quantile_between_min_max; [exact Hd | split; Lqa.lra]. }
  split; [reflexivity|]. split; [destruct data; [now contradiction Hd | simpl; lia]|].
  split; [apply qmean_times_count; exact Hd|].
  split; [exact Hmean|]. split; [exact Hmed|]. split; [Lqa.lra|]. split.
  - apply (qmean_bounds _ 0 (Stats.qmax (map (fun x => Qabs (x - qmean data)) data))).
    + destruct data; [now contradiction Hd | discriminate].
    + intros x Hx. split; [| apply qmax_ge; exact Hx].
      apply in_map_iff in Hx as [y [<- _]]. apply Qabs_nonneg.
  - apply median_nonneg.
    + destruct data; [now contradiction Hd | discriminate].
    + intros x Hx. apply in_map_iff in Hx as [y [<- _]]. apply Qabs_nonneg.
Qed.



End SummaryFacts.



(* ================================================================== *)
(** * The mode *)
(* ================================================================== *)

Lemma occurrences_proper (l : list Q) (x y : Q) :
  (x == y)%Q -> Stats.occurrences l x = Stats.occurrences l y.
Proof.
  intros E. unfold Stats.occurrences. f_equal. apply filter_ext. intros z.
  destruct (Qeq_bool x z) eqn:Ex, (Qeq_bool y z) eqn:Ey; try reflexivity.
  - apply Qeq_bool_iff in Ex. apply Qeq_bool_neq in Ey.
    exfalso. apply Ey. rewrite <- E. exact Ex.
  - apply Qeq_bool_iff in Ey. apply Qeq_bool_neq in Ex.
    exfalso. apply Ex. rewrite E. exact Ey.
Qed.

Lemma distinct_In (l : list Q) (v : Q) : In v (Stats.distinct l) -> In v l.
Proof.
  induction l as [| x rest IH]; [intros []|].
  cbn [Stats.distinct]. destruct rest as [| y rest'].
  - intros H. exact H.
  - destruct (Qeq_bool x y).
    + intros H. right. apply IH. exact H.
    + intros [<- | H]; [now left | right; apply IH; exact H].
Qed.

Lemma distinct_represents (l : list Q) (x : Q) :
  In x l -> exists v, In v (Stats.distinct l) /\ (x == v)%Q.
Proof.
  revert x. induction l as [| y rest IH]; intros x; [intros []|].
  cbn [Stats.distinct]. destruct rest as [| z rest'].
  - intros [<- | []]. exists y. split; [now left | reflexivity].
  - destruct (Qeq_bool y z) eqn:E.
    + intros [<- | H].
      * apply Qeq_bool_iff in E.
        destruct (IH z (or_introl eq_refl)) as [v [Hv Hzv]].
        exists v. split; [exact Hv|]. rewrite E. exact Hzv.
      * apply IH. exact H.
    + intros [<- | H].
      * exists y. split; [now left | reflexivity].
      * destruct (IH x H) as [v [Hv Hxv]]. exists v. split; [now right | exact Hxv].
Qed.

Lemma max_list_ge (ns : list nat) (n : nat) :
  In n ns -> (n <= fold_right Nat.max 0 ns)%nat.
Proof.
  induction ns as [| m ns IH]; [intros []|]. simpl.
  intros [<- | H]; [lia | specialize (IH H); lia].
Qed.

Lemma max_list_attained (ns : list nat) :
  ns <> [] -> In (fold_right Nat.max 0%nat ns) ns.
Proof.
  induction ns as [| m ns IH]; [intros H; now contradiction H|]. intros _.
  simpl. destruct ns as [| k ns'].
  - left. simpl. lia.
  - destruct (Nat.max_spec m (fold_right Nat.max 0%nat (k :: ns'))) as [[_ E] | [_ E]];
      rewrite E.
    + right. apply IH. discriminate.
    + now left.
Qed.

Lemma mode_In (l : list Q) (m : Q) :
  In m (Stats.mode l) <->
  In m (Stats.distinct (Stats.sort l)) /\
  Stats.occurrences l m
  = fold_right Nat.max 0%nat
      (map (Stats.occurrences l) (Stats.distinct (Stats.sort l))).
Proof.
  unfold Stats.mode. rewrite filter_In, Nat.eqb_eq. reflexivity.
Qed.

(** A mode is a value of the data that no value outnumbers. *)
Lemma mode_most_frequent (l : list Q) (m : Q) :
  In m (Stats.mode l) ->
  In m l /\
  forall x, In x l -> (Stats.occurrences l x <= Stats.occurrences l m)%nat.
Proof.
  intros H. apply mode_In in H as [Hv Hbest]. split.
  - apply In_sort, distinct_In. exact Hv.
  - intros x Hx. apply In_sort in Hx.
    destruct (distinct_represents _ _ Hx) as [v [Hin Hxv]].
    rewrite (occurrences_proper l x v Hxv), Hbest.
    apply max_list_ge. apply in_map. exact Hin.
Qed.

Lemma mode_equally_frequent (l : list Q) (m m' : Q) :
  In m (Stats.mode l) -> In m' (Stats.mode l) ->
  Stats.occurrences l m' = Stats.occurrences l m.
Proof.
  intros H H'. apply mode_In in H as [_ E], H' as [_ E']. congruence.
Qed.

Lemma mode_nonempty (l : list Q) : l <> [] -> Stats.mode l <> [].
Proof.
  intros Hl.
  assert (Hvals : Stats.distinct (Stats.sort l) <> []).
  { destruct l as [| x l]; [now contradiction Hl|].
    destruct (distinct_represents (Stats.sort (x :: l)) x) as [v [Hv _]].
    - apply In_sort. now left.
    - intros E. rewrite E in Hv. exact Hv. }
  assert (Hocc : map (Stats.occurrences l) (Stats.distinct (Stats.sort l)) <> []).
  { intros E. apply map_eq_nil in E. contradiction. }
  apply max_list_attained in Hocc. apply in_map_iff in Hocc as [v [Ev Hv]].
  intros Hnil. assert (Hm : In v (Stats.mode l)) by (apply mode_In; now split).
  rewrite Hnil in Hm. exact Hm.
Qed.

(** X5.  Every summary has a primary mode; it is a value of the column
    that occurs at least as often as every other value, and each
    additional mode is a value that occurs exactly as often. *)
Theorem summary_mode (df : DataFrame) (column : string) (s : StatSummary) :
  calculate_statistics df column = inr s ->
  let data := present (map volume df) in
  exists m,
    stat_mode s = Some m /\
    In m data /\
    (forall x, In x data ->
       (Stats.occurrences data x <= Stats.occurrences data m)%nat) /\
    (forall more m', stat_more_modes s = Some more -> In m' more ->
       In m' data /\ Stats.occurrences data m' = Stats.occurrences data m).
Proof.
  intros H data. apply calculate_statistics_inv in H as [_ [Hd ->]]. fold data in Hd |- *.
  cbv [summarize stat_mode stat_more_modes].
  pose proof (mode_nonempty data Hd) as Hne.
  destruct (Stats.mode data) as [| m rest] eqn:E; [now contradiction Hne|].
  assert (Hm : In m (Stats.mode data)) by (rewrite E; now left).
  exists m. split; [reflexivity|].
  destruct (mode_most_frequent data m Hm) as [Hin Hmax].
  split; [exact Hin|]. split; [exact Hmax|].
  intros more m' Hmore Hm'.
  assert (Hin' : In m' (Stats.mode data)).
  { rewrite E. right. cbn [tl] in Hmore.
    destruct (1 <? List.length (m :: rest))%nat; [| discriminate Hmore].
    injection Hmore as <-. exact Hm'. }
  split; [exact (proj1 (mode_most_frequent data m' Hin'))|].
  apply mode_equally_frequent; assumption.
Qed.

Lemma summary_mode_witness :
  exists s m,
    calculate_statistics scenario_A "Объем воды (л)" = inr s /\
    stat_mode s = Some m /\
    In m (present (map volume scenario_A)).
Proof.
  eexists.
  destruct (summary_mode scenario_A "Объем воды (л)" _ eq_refl) as [m [Hm [Hin _]]].
  exists m. split; [reflexivity|]. split; [exact Hm | exact Hin].
Defined.

(* ================================================================== *)
(** * The computed correlation record *)
(* ================================================================== *)

Lemma fclip_range (a : float) :
  fclip a = NaN \/ exists x, fclip a = Fin x /\ (-1 <= x <= 1)%R.
Proof.
  destruct a as [ | | | x]; simpl.
  - now left.
  - right. exists 1%R. split; [reflexivity | lra].
  - right. exists (-1)%R. split; [reflexivity | lra].
  - right. eexists. split; [reflexivity|]. split.
    + apply Rmax_l.
    + apply Rmax_lub; [lra | apply Rmin_r].
Qed.

Lemma pearson_range (ps : list (Q * Q)) :
  pearson ps = NaN \/ exists x, pearson ps = Fin x /\ (-1 <= x <= 1)%R.
Proof.
  unfold pearson. cbv zeta.
  destruct (List.length ps <? 2)%nat; [now left | apply fclip_range].
Qed.

Lemma corr_range (a b : Series) (r : float) :
  corr a b = inr r ->
  r = NaN \/ exists x, r = Fin x /\ (-1 <= x <= 1)%R.
Proof.
  unfold corr.
  destruct (to_float_array a) as [ea | x]; [discriminate|].
  destruct (to_float_array b) as [eb | y]; [discriminate|].
  unfold bind, ret. intros H. injection H as <-.
  destruct (valid_pairs x y) as [| p ps]; [now left | apply pearson_range].
Qed.

(** What [correlate] has done when it returns the full record. *)
Lemma correlate_computed col1 col2 data1 data2 rec :
  correlate col1 col2 data1 data2 = inr (Computed rec) ->
  let mask := mask_and (notna data1) (notna data2) in
  (2 <= len (select_series data1 mask))%nat /\
  corr (select_series data1 mask) (select_series data2 mask) = inr (corr_r rec) /\
  corr_n rec = len (select_series data1 mask) /\
  corr_strength rec = interpret_correlation (corr_r rec) /\
  corr_interpretation rec = get_correlation_interpretation (corr_r rec) /\
  corr_p rec = estimate_p_value (corr_r rec) (Z.of_nat (corr_n rec)) /\
  corr_col1 rec = col1 /\ corr_col2 rec = col2.
Proof.
  unfold correlate. cbv zeta.
  destruct (len (select_series data1 (mask_and (notna data1) (notna data2))) <? 2)%nat
    eqn:L; [discriminate|].
  apply Nat.ltb_ge in L.
  destruct (corr _ _) as [e | r]; [discriminate|].
  unfold bind, ret. intros H. injection H as <-. cbn. repeat split; assumption.
Qed.

(** What [calculate_correlation] has done when it returns the full
    record. *)
Lemma calculate_correlation_computed df col1 col2 rec :
  calculate_correlation df col1 col2 = Computed rec ->
  exists data1 data2,
    encode_column df col1 = inr data1 /\
    encode_column df col2 = inr data2 /\
    correlate col1 col2 data1 data2 = inr (Computed rec).
Proof.
  unfold calculate_correlation. rewrite calculate_correlation_try_unfold.
  destruct ((col1 =? "") || (col2 =? "")); [discriminate|].
  destruct (encode_column df col1) as [e1 | data1]; [discriminate|].
  destruct (encode_column df col2) as [e2 | data2]; [discriminate|].
  cbn [bind].
  destruct (correlate col1 col2 data1 data2) as [e | res] eqn:E; [discriminate|].
  intros ->. now exists data1, data2.
Qed.

Lemma estimate_p_value_insufficient (r : float) (n : Z) :
  estimate_p_value r n = "Недостаточно данных" <-> (n <= 2)%Z.
Proof.
  unfold estimate_p_value. destruct (Z.leb_spec n 2) as [L | G].
  - split; [intros _; exact L | reflexivity].
  - split; [| lia].
    destruct (fgt (t_stat r n) (Fin 3.5)); [discriminate|].
    destruct (fgt (t_stat r n) (Fin 2.6)); [discriminate|].
    destruct (fgt (t_stat r n) (Fin 1.96)); discriminate.
Qed.


Lemma scenario_B_computed :
  exists rec,
    calculate_correlation scenario_B "Объем воды (л)" "Время" = Computed rec /\
    corr_n rec = 5%nat.
Proof. eexists. split; reflexivity. Qed.


(** ** A column against itself *)

Lemma valid_pairs_diag (x : list (option Q)) :
  valid_pairs x x = map (fun v => (v, v)) (present x).
Proof.
  induction x as [| [v |] x IH]; simpl; [reflexivity | now rewrite IH | exact IH].
Qed.

Lemma self_ratio (V : R) :
  fclip (fdiv (fdiv (Fin V) (fsqrt (Fin V))) (fsqrt (Fin V))) = Fin 1
  \/ fclip (fdiv (fdiv (Fin V) (fsqrt (Fin V))) (fsqrt (Fin V))) = NaN.
Proof.
  destruct (Rtotal_order V 0) as [Neg | [Zero | Pos]].
  - right. simpl. now rewrite Rltb_true.
  - right. subst V. rewrite fsqrt_Fin by lra. rewrite sqrt_0. simpl.
    rewrite Reqb_true by reflexivity. now rewrite signed_zero.
  - left. rewrite fsqrt_Fin by lra.
    assert (Hs : (0 < sqrt V)%R) by (apply sqrt_lt_R0; exact Pos).
    simpl. rewrite (Reqb_false (sqrt V) 0) by lra.
    simpl. rewrite (Reqb_false (sqrt V) 0) by lra. simpl.
    replace (V / sqrt V / sqrt V)%R with 1%R.
    + f_equal. rewrite Rmin_left by lra. apply Rmax_right. lra.
    + rewrite <- (sqrt_sqrt V) at 1 by lra. field. lra.
Qed.

Lemma pearson_diag (data : list Q) :
  pearson (map (fun v => (v, v)) data) = Fin 1
  \/ pearson (map (fun v => (v, v)) data) = NaN.
Proof.
  unfold pearson. cbv zeta. rewrite length_map.
  destruct (List.length data <? 2)%nat; [now right|].
  assert (F : map fst (map (fun v : Q => (v, v)) data) = data)
    by (rewrite map_map; apply map_id).
  assert (S : map snd (map (fun v : Q => (v, v)) data) = data)
    by (rewrite map_map; apply map_id).
  assert (D1 : map (fun p : Q * Q => (fst p, fst p)) (map (fun v : Q => (v, v)) data)
               = map (fun v : Q => (v, v)) data)
    by (rewrite map_map; reflexivity).
  assert (D2 : map (fun p : Q * Q => (snd p, snd p)) (map (fun v : Q => (v, v)) data)
               = map (fun v : Q => (v, v)) data)
    by (rewrite map_map; reflexivity).
  rewrite F, S, D1, D2. unfold of_Q. apply self_ratio.
Qed.

Lemma corr_self (s : Series) (r : float) :
  corr s s = inr r -> r = Fin 1 \/ r = NaN.
Proof.
  unfold corr. destruct (to_float_array s) as [e | x]; [discriminate|].
  unfold bind, ret. intros H. injection H as <-.
  rewrite valid_pairs_diag.
  destruct (present x) as [| v data] eqn:E; [now right|].
  exact (pearson_diag (v :: data)).
Qed.


Lemma scenario_B_self_computed :
  exists rec,
    calculate_correlation scenario_B "Объем воды (л)" "Объем воды (л)" = Computed rec.
Proof. eexists. reflexivity. Qed.


(** ** The sign of the coefficient *)

Lemma fabs_fneg (r : float) : fabs (fneg r) = fabs r.
Proof. destruct r; simpl; try reflexivity. now rewrite Rabs_Ropp. Qed.

Lemma fmul_fneg_fneg (r : float) : fmul (fneg r) (fneg r) = fmul r r.
Proof. destruct r; simpl; try reflexivity. f_equal. ring. Qed.

Lemma t_stat_spec_fneg (r : float) (n : Z) :
  t_stat_spec (fneg r) n = t_stat_spec r n.
Proof.
  unfold t_stat_spec. rewrite fabs_fneg, fmul_fneg_fneg.
  replace (feq (fneg r) (Fin 1) || feq (fneg r) (Fin (-1)))
    with (feq r (Fin 1) || feq r (Fin (-1))); [reflexivity|].
  destruct r as [ | | | x]; try reflexivity. simpl. unfold Reqb.
  destruct (Req_dec_T x 1), (Req_dec_T x (-1)),
    (Req_dec_T (- x) 1), (Req_dec_T (- x) (-1));
    simpl; try reflexivity; exfalso; lra.
Qed.

(** X8.  The strength label, the interpretation and the significance label
    depend on the magnitude of the coefficient only: a direct and an
    inverse relation of the same strength get the same three labels. *)
Theorem labels_ignore_sign (r : float) (n : Z) :
  interpret_correlation (fneg r) = interpret_correlation r /\
  get_correlation_interpretation (fneg r) = get_correlation_interpretation r /\
  estimate_p_value (fneg r) n = estimate_p_value r n.
Proof.
  split; [| split].
  - unfold interpret_correlation. now rewrite fabs_fneg.
  - unfold get_correlation_interpretation. now rewrite fabs_fneg.
  - unfold estimate_p_value. destruct (Z.leb_spec n 2) as [L | G]; [reflexivity|].
    rewrite !t_stat_agrees by lia. now rewrite t_stat_spec_fneg.
Qed.

(* ================================================================== *)
(** * Pearson's r under a change of units *)
(* ================================================================== *)

Section AffineFacts.

Local Open Scope Q_scope.

Variables a b c d : Q.

Lemma qsum_affine_fst (ps' ps : list (Q * Q)) :
  Forall2 (pair_affine a b c d) ps' ps ->
  qsum (map fst ps') == a * qsum (map fst ps) + qlen (map fst ps) * b.
Proof.
  unfold qlen. induction 1 as [| p' p ps' ps [Hf _] _ IH]; simpl.
  - change (inject_Z 0) with 0. ring.
  - rewrite IH, Hf.
    replace (Z.pos (Pos.of_succ_nat (List.length (map fst ps))))
      with (Z.of_nat (List.length (map fst ps)) + 1)%Z by lia.
    rewrite inject_Z_plus. change (inject_Z 1) with 1. ring.
Qed.

Lemma qsum_affine_snd (ps' ps : list (Q * Q)) :
  Forall2 (pair_affine a b c d) ps' ps ->
  qsum (map snd ps') == c * qsum (map snd ps) + qlen (map snd ps) * d.
Proof.
  unfold qlen. induction 1 as [| p' p ps' ps [_ Hs] _ IH]; simpl.
  - change (inject_Z 0) with 0. ring.
  - rewrite IH, Hs.
    replace (Z.pos (Pos.of_succ_nat (List.length (map snd ps))))
      with (Z.of_nat (List.length (map snd ps)) + 1)%Z by lia.
    rewrite inject_Z_plus. change (inject_Z 1) with 1. ring.
Qed.

Lemma qlen_nonzero (l : list Q) : l <> [] -> ~ qlen l == 0.
Proof.
  intros Hl Z. pose proof (qlen_pos l Hl) as P. rewrite Z in P. discriminate P.
Qed.

Lemma qmean_affine_fst (ps' ps : list (Q * Q)) :
  ps <> [] ->
  Forall2 (pair_affine a b c d) ps' ps ->
  qmean (map fst ps') == a * qmean (map fst ps) + b.
Proof.
  intros Hne H. unfold qmean. rewrite (qsum_affine_fst _ _ H).
  assert (L : qlen (map fst ps') = qlen (map fst ps))
    by (unfold qlen; rewrite !length_map, (Forall2_length H); reflexivity).
  rewrite L. field. apply qlen_nonzero. destruct ps; [now contradiction Hne | discriminate].
Qed.

Lemma qmean_affine_snd (ps' ps : list (Q * Q)) :
  ps <> [] ->
  Forall2 (pair_affine a b c d) ps' ps ->
  qmean (map snd ps') == c * qmean (map snd ps) + d.
Proof.
  intros Hne H. unfold qmean. rewrite (qsum_affine_snd _ _ H).
  assert (L : qlen (map snd ps') = qlen (map snd ps))
    by (unfold qlen; rewrite !length_map, (Forall2_length H); reflexivity).
  rewrite L. field. apply qlen_nonzero. destruct ps; [now contradiction Hne | discriminate].
Qed.

End AffineFacts.

Lemma codev_affine (a b c d : Q) (ps' ps : list (Q * Q)) (mx my mx' my' : Q) :
  Forall2 (pair_affine a b c d) ps' ps ->
  (mx' == a * mx + b)%Q -> (my' == c * my + d)%Q ->
  (codev ps' mx' my' == a * c * codev ps mx my)%Q.
Proof.
  intros H Hx Hy. unfold codev.
  induction H as [| p' p ps' ps [Hf Hs] _ IH]; simpl.
  - ring.
  - rewrite IH, Hf, Hs, Hx, Hy. ring.
Qed.

Lemma Forall2_map_pairs {A B : Type} (R : A -> A -> Prop) (S : B -> B -> Prop)
  (f : A -> B) (l' l : list A) :
  (forall x' x, R x' x -> S (f x') (f x)) ->
  Forall2 R l' l -> Forall2 S (map f l') (map f l).
Proof.
  intros Hf H. induction H; simpl; constructor; auto.
Qed.

Section ScaledRatio.

Local Open Scope R_scope.

Lemma signed_scale (k x : R) (i : float) : 0 < k -> signed (k * x) i = signed x i.
Proof.
  intros Hk. destruct (Rtotal_order x 0) as [Neg | [Zero | Pos]].
  - rewrite !signed_neg; [reflexivity | exact Neg | nra].
  - subst x. rewrite Rmult_0_r. reflexivity.
  - rewrite !signed_pos; [reflexivity | exact Pos | nra].
Qed.

Lemma fdiv_inf_nonneg (f : float) (y y' : R) :
  0 <= y -> 0 <= y' ->
  (f = PInf \/ f = NInf \/ f = NaN) ->
  fdiv f (Fin y) = fdiv f (Fin y').
Proof.
  intros Hy Hy' [-> | [-> | ->]]; simpl; try reflexivity;
    now rewrite !Rltb_false by lra.
Qed.

Lemma signed_cases (x : R) :
  signed x PInf = PInf \/ signed x PInf = NInf \/ signed x PInf = NaN.
Proof.
  destruct (Rtotal_order x 0) as [Neg | [Zero | Pos]].
  - right. left. now rewrite signed_neg.
  - right. right. subst. apply signed_zero.
  - left. now rewrite signed_pos.
Qed.

(** Rescaling the covariance by [A * C] and the two deviations by [A] and
    [C] leaves the ratio as it was. *)
Lemma fdiv_scaled (A C XY sx sy : R) :
  0 < A -> 0 < C -> 0 <= sx -> 0 <= sy ->
  fdiv (fdiv (Fin (A * C * XY)) (Fin (A * sx))) (Fin (C * sy))
  = fdiv (fdiv (Fin XY) (Fin sx)) (Fin sy).
Proof.
  intros HA HC Hsx Hsy.
  destruct (Req_dec_T sx 0) as [Zx | Nx].
  - subst sx. rewrite Rmult_0_r. simpl. rewrite Reqb_true by reflexivity.
    replace (A * C * XY) with ((A * C) * XY) by ring.
    rewrite signed_scale by nra.
    apply fdiv_inf_nonneg; [nra | exact Hsy | apply signed_cases].
  - assert (NAx : A * sx <> 0) by nra.
    simpl. rewrite (Reqb_false (A * sx) 0), (Reqb_false sx 0) by assumption.
    replace (A * C * XY / (A * sx)) with (C * (XY / sx)) by (field; lra).
    destruct (Req_dec_T sy 0) as [Zy | Ny].
    + subst sy. rewrite Rmult_0_r. simpl. rewrite Reqb_true by reflexivity.
      apply signed_scale. exact HC.
    + assert (NCy : C * sy <> 0) by nra.
      simpl. rewrite (Reqb_false (C * sy) 0), (Reqb_false sy 0) by assumption.
      f_equal. field. lra.
Qed.

Lemma fsqrt_scaled (A X : R) :
  0 < A ->
  (fsqrt (Fin (A * A * X)) = NaN /\ fsqrt (Fin X) = NaN) \/
  (exists s, 0 <= s /\ fsqrt (Fin X) = Fin s /\ fsqrt (Fin (A * A * X)) = Fin (A * s)).
Proof.
  intros HA. assert (HAA : 0 < A * A) by nra.
  destruct (Rlt_dec X 0) as [Neg | Pos].
  - left. simpl.
    rewrite (Rltb_true (A * A * X) 0) by nra.
    rewrite (Rltb_true X 0) by exact Neg. split; reflexivity.
  - right. exists (sqrt X). split; [apply sqrt_pos|].
    assert (HX : 0 <= X) by lra.
    rewrite (fsqrt_Fin X) by exact HX.
    rewrite (fsqrt_Fin (A * A * X)) by nra.
    split; [reflexivity|]. f_equal.
    rewrite sqrt_mult by lra. rewrite sqrt_square by lra. reflexivity.
Qed.

Lemma ratio_scaled (A C XY X Y : R) :
  0 < A -> 0 < C ->
  fdiv (fdiv (Fin (A * C * XY)) (fsqrt (Fin (A * A * X)))) (fsqrt (Fin (C * C * Y)))
  = fdiv (fdiv (Fin XY) (fsqrt (Fin X))) (fsqrt (Fin Y)).
Proof.
  intros HA HC.
  destruct (fsqrt_scaled A X HA) as [[-> ->] | [sx [Hsx [-> ->]]]];
    destruct (fsqrt_scaled C Y HC) as [[-> ->] | [sy [Hsy [-> ->]]]].
  - reflexivity.
  - reflexivity.
  - now rewrite !fdiv_NaN_r.
  - apply fdiv_scaled; assumption.
Qed.

End ScaledRatio.

(** Pearson's r does not change when either variable is rescaled by a
    positive factor and shifted. *)
Lemma pearson_affine (a b c d : Q) (ps' ps : list (Q * Q)) :
  (0 < a)%Q -> (0 < c)%Q ->
  Forall2 (pair_affine a b c d) ps' ps ->
  pearson ps' = pearson ps.
Proof.
  intros Ha Hc H. unfold pearson. cbv zeta.
  rewrite (Forall2_length H).
  destruct (List.length ps <? 2)%nat eqn:L; [reflexivity|].
  assert (Hne : ps <> []) by (intros ->; simpl in L; discriminate L).
  pose proof (qmean_affine_fst a b c d ps' ps Hne H) as Mx.
  pose proof (qmean_affine_snd a b c d ps' ps Hne H) as My.
  set (mx := qmean (map fst ps)) in *. set (my := qmean (map snd ps)) in *.
  set (mx' := qmean (map fst ps')) in *. set (my' := qmean (map snd ps')) in *.
  set (fact := inject_Z (Z.of_nat (List.length ps) - 1)).
  pose proof (codev_affine a b c d ps' ps mx my mx' my' H Mx My) as Cxy.
  assert (Cxx : (codev (map (fun p => (fst p, fst p)) ps') mx' mx'
                 == a * a * codev (map (fun p => (fst p, fst p)) ps) mx mx)%Q).
  { apply (codev_affine a b a b); [| exact Mx | exact Mx].
    apply (Forall2_map_pairs (pair_affine a b c d)); [| exact H].
    intros p' p [Hf _]. split; exact Hf. }
  assert (Cyy : (codev (map (fun p => (snd p, snd p)) ps') my' my'
                 == c * c * codev (map (fun p => (snd p, snd p)) ps) my my)%Q).
  { apply (codev_affine c d c d); [| exact My | exact My].
    apply (Forall2_map_pairs (pair_affine a b c d)); [| exact H].
    intros p' p [_ Hs]. split; exact Hs. }
  f_equal. unfold of_Q.
  rewrite (Qeq_eqR _ (a * c * (codev ps mx my / fact))%Q)
    by (rewrite Cxy; unfold Qdiv; ring).
  rewrite (Qeq_eqR (codev (map (fun p => (fst p, fst p)) ps') mx' mx' / fact)%Q
             (a * a * (codev (map (fun p => (fst p, fst p)) ps) mx mx / fact))%Q)
    by (rewrite Cxx; unfold Qdiv; ring).
  rewrite (Qeq_eqR (codev (map (fun p => (snd p, snd p)) ps') my' my' / fact)%Q
             (c * c * (codev (map (fun p => (snd p, snd p)) ps) my my / fact))%Q)
    by (rewrite Cyy; unfold Qdiv; ring).
  rewrite !Q2R_mult. apply ratio_scaled.
  - rewrite <- RMicromega.Q2R_0. apply Qlt_Rlt. exact Ha.
  - rewrite <- RMicromega.Q2R_0. apply Qlt_Rlt. exact Hc.
Qed.

(* ================================================================== *)
(** * The scatter plot against the correlation record *)
(* ================================================================== *)

Lemma plot_scatter_unfold parse_float (df : DataFrame) (col1 col2 : string) :
  plot_scatter parse_float df col1 col2 =
  bind (scatter_numeric parse_float df col1) (fun x_numeric =>
  bind (scatter_numeric parse_float df col2) (fun y_numeric =>
  scatter_points x_numeric y_numeric)).
Proof.
  unfold plot_scatter, scatter_numeric, scatter_points.
  destruct (getitem df col1) as [e1 | x]; [reflexivity|].
  destruct (getitem df col2) as [e2 | y]; reflexivity.
Qed.

Lemma cell_affine_is_some (a b : Q) (x' x : option Q) :
  cell_affine a b x' x -> is_some x' = is_some x.
Proof. destruct x', x; simpl; intros H; try reflexivity; contradiction. Qed.

Lemma valid_pairs_affine {A : Type} (rows : list A) (a b c d : Q)
  (c1 c2 c1' c2' : A -> option Q) :
  (forall r, cell_affine a b (c1' r) (c1 r)) ->
  (forall r, cell_affine c d (c2' r) (c2 r)) ->
  Forall2 (pair_affine a b c d)
    (valid_pairs (map c1' rows) (map c2' rows))
    (valid_pairs (map c1 rows) (map c2 rows)).
Proof.
  intros H1 H2. induction rows as [| r rows IH]; simpl; [constructor|].
  specialize (H1 r). specialize (H2 r).
  destruct (c1' r), (c1 r), (c2' r), (c2 r); simpl in H1, H2;
    try contradiction; try exact IH.
  constructor; [split; assumption | exact IH].
Qed.

(** Correlating rescaled columns gives the same coefficient. *)
Lemma corr_affine {A : Type} (rows : list A) (a b c d : Q)
  (c1 c2 c1' c2' : A -> option Q) :
  (0 < a)%Q -> (0 < c)%Q ->
  (forall r, cell_affine a b (c1' r) (c1 r)) ->
  (forall r, cell_affine c d (c2' r) (c2 r)) ->
  corr (Float64 (map c1' rows)) (Float64 (map c2' rows))
  = corr (Float64 (map c1 rows)) (Float64 (map c2 rows)).
Proof.
  intros Ha Hc H1 H2. unfold corr, to_float_array, bind, ret. f_equal.
  pose proof (valid_pairs_affine rows a b c d c1 c2 c1' c2' H1 H2) as F.
  pose proof (pearson_affine a b c d _ _ Ha Hc F) as P.
  destruct F as [| p' p ps' ps Hp F]; [reflexivity | exact P].
Qed.

Lemma select_all_present {A : Type} (l : list (option A)) (m : list bool) :
  Forall (fun cell => is_some cell = true) (select l (mask_and (map is_some l) m)).
Proof.
  revert m. induction l as [| cell l IH]; intros [| flag m]; simpl; try constructor.
  destruct cell as [v |]; simpl.
  - destruct flag; [constructor; [reflexivity | apply IH] | apply IH].
  - apply IH.
Qed.

Lemma to_float_array_text (l : list (option string)) :
  l <> [] ->
  Forall (fun cell => is_some cell = true) l ->
  exists e, to_float_array (Object l) = inl e.
Proof.
  intros Hne Hall. destruct l as [| [txt |] l]; [now contradiction Hne | |].
  - simpl. eexists. reflexivity.
  - apply Forall_inv in Hall. discriminate Hall.
Qed.

(** A text column never yields the full record. *)
Lemma correlate_needs_numbers df col1 col2 data1 data2 rec :
  column_of df col1 data1 ->
  column_of df col2 data2 ->
  correlate col1 col2 data1 data2 = inr (Computed rec) ->
  (exists l1, data1 = Float64 l1) /\ (exists l2, data2 = Float64 l2).
Proof.
  intros C1 C2 H.
  destruct (correlate_computed _ _ _ _ _ H) as [Hlen [Hr _]].
  assert (L : len (select_series data2 (mask_and (notna data1) (notna data2)))
              = len (select_series data1 (mask_and (notna data1) (notna data2)))).
  { rewrite (column_of_notna _ _ _ C1), (column_of_notna _ _ _ C2), mask_and_map.
    rewrite (column_of_select_len df col1 data1 _ C1).
    apply (column_of_select_len df col2 data2 _ C2). }
  destruct C1 as [c1 Hc1 | c1 Hc1].
  - split; [eexists; reflexivity|].
    destruct C2 as [c2 Hc2 | c2 Hc2]; [eexists; reflexivity|].
    exfalso. cbn [select_series notna] in Hr, Hlen, L.
    rewrite (mask_and_comm (map is_some (map c1 df))) in Hr, L.
    destruct (to_float_array_text
                (select (map c2 df)
                   (mask_and (map is_some (map c2 df)) (map is_some (map c1 df)))))
      as [e He].
    + intros E. rewrite E in L. cbn [len List.length] in L.
      rewrite (mask_and_comm (map is_some (map c2 df))) in L. cbn [len] in Hlen. lia.
    + apply select_all_present.
    + unfold corr in Hr. rewrite He in Hr. discriminate Hr.
  - exfalso. cbn [select_series notna] in Hr, Hlen.
    destruct (to_float_array_text
                (select (map c1 df) (mask_and (map is_some (map c1 df)) (notna data2))))
      as [e He].
    + intros E. rewrite E in Hlen. cbn [len List.length] in Hlen. lia.
    + apply select_all_present.
    + unfold corr in Hr. rewrite He in Hr. discriminate Hr.
Qed.

Lemma elapsed_affine (t t0 : Z) :
  (inject_Z (t - t0) / inject_Z 1000000000
   == (1 # 1000000000) * inject_Z t + - inject_Z t0 / inject_Z 1000000000)%Q.
Proof.
  unfold Z.sub. rewrite inject_Z_plus, inject_Z_opp.
  change (inject_Z 1000000000) with (1000000000 # 1). field.
Qed.

(** A numeric column as the record sees it and as the scatter plot sees
    it: the same cells up to a positive change of units. *)
Lemma column_units parse_float (df : DataFrame) (col : string) (l : list (option Q)) :
  encode_column df col = inr (Float64 l) ->
  exists (c c' : Row -> option Q) (k b : Q),
    (0 < k)%Q /\
    l = map c df /\
    scatter_numeric parse_float df col = inr (Float64 (map c' df)) /\
    forall r, cell_affine k b (c' r) (c r).
Proof.
  unfold encode_column, scatter_numeric, getitem.
  destruct (String.eqb_spec col "Время") as [-> | Nt].
  - intros H. injection H as <-.
    exists (fun r => Some (inject_Z (time r))),
           (fun r => Some (inject_Z (time r - min_time (map time df))
                           / inject_Z 1000000000)%Q),
           (1 # 1000000000), (- inject_Z (min_time (map time df)) / inject_Z 1000000000)%Q.
    split; [reflexivity|]. split; [reflexivity|]. split; [reflexivity|].
    intros r. apply elapsed_affine.
  - destruct (String.eqb_spec col "Активность") as [-> | Na]; [discriminate|].
    destruct (String.eqb_spec col "Объем воды (л)") as [-> | Nv]; [| discriminate].
    intros H. injection H as <-.
    exists volume, volume, 1%Q, 0%Q.
    split; [reflexivity|]. split; [reflexivity|]. split; [reflexivity|].
    intros r. destruct (volume r); simpl; [ring | exact I].
Qed.

Lemma notna_affine (df : DataFrame) (k b : Q) (c c' : Row -> option Q) :
  (forall r, cell_affine k b (c' r) (c r)) ->
  map is_some (map c' df) = map is_some (map c df).
Proof.
  intros H. rewrite !map_map. apply map_ext. intros r.
  apply (cell_affine_is_some k b). apply H.
Qed.



(** ** What the scatter window can show *)

Lemma existsb_columns (col : string) :
  existsb (String.eqb col) columns = true <-> In col columns.
Proof.
  rewrite existsb_exists. split.
  - intros [c [Hin Heq]]. apply String.eqb_eq in Heq. now subst.
  - intros Hin. exists col. split; [exact Hin | apply String.eqb_refl].
Qed.

Lemma validate_two_columns_ok (col1 col2 action : string) :
  validate_two_columns col1 col2 action = None <->
  In col1 columns /\ In col2 columns /\ col1 <> col2.
Proof.
  unfold validate_two_columns.
  destruct (existsb (String.eqb col1) columns) eqn:E1;
    destruct (existsb (String.eqb col2) columns) eqn:E2; cbn [negb orb].
  - apply existsb_columns in E1, E2.
    destruct (String.eqb_spec col1 col2) as [E | N].
    + split; [discriminate | intros [_ [_ N]]; contradiction].
    + split; [intros _; now repeat split | reflexivity].
  - split; [discriminate|]. intros [_ [K2 _]].
    apply existsb_columns in K2. congruence.
  - split; [discriminate|]. intros [K1 _].
    apply existsb_columns in K1. congruence.
  - split; [discriminate|]. intros [K1 _].
    apply existsb_columns in K1. congruence.
Qed.

Lemma scatter_numeric_known parse_float (df : DataFrame) (col : string) :
  In col columns ->
  exists c : Row -> option Q,
    scatter_numeric parse_float df col = inr (Float64 (map c df)).
Proof.
  intros [<- | [<- | [<- | []]]].
  - eexists. reflexivity.
  - exists (fun r => match activity r with
                     | Some txt => parse_float txt
                     | None => None
                     end).
    unfold scatter_numeric, getitem. cbn. unfold ret. now rewrite map_map.
  - exists volume. reflexivity.
Qed.

(** On two numeric columns of one frame the plot either lacks points or
    is drawn with as many points on each axis as it announces. *)
Lemma scatter_points_outcome (df : DataFrame) (c1 c2 : Row -> option Q) :
  scatter_points (Float64 (map c1 df)) (Float64 (map c2 df))
  = inl (ValueError "Недостаточно данных для корреляции")
  \/ exists plot,
       scatter_points (Float64 (map c1 df)) (Float64 (map c2 df)) = inr plot /\
       (2 <= scatter_n plot)%nat /\
       List.length (scatter_x plot) = scatter_n plot /\
       List.length (scatter_y plot) = scatter_n plot /\
       Forall (fun cell => is_some cell = true) (scatter_x plot) /\
       Forall (fun cell => is_some cell = true) (scatter_y plot).
Proof.
  unfold scatter_points. cbv zeta. cbn [notna select_series len].
  destruct (List.length _ <? 2)%nat eqn:L; [now left|]. right.
  apply Nat.ltb_ge in L.
  unfold corr. cbn [to_float_array]. unfold bind, ret.
  eexists. split; [reflexivity|]. cbn [scatter_n scatter_x scatter_y].
  split; [exact L|]. split; [reflexivity|]. split.
  - rewrite !map_map, mask_and_map, !select_map.
    now rewrite !length_map.
  - split; [apply select_all_present|].
    rewrite mask_and_comm. apply select_all_present.
Qed.



(* ================================================================== *)
(** * What a plotted forecast contains *)
(* ================================================================== *)

Lemma column_values_volume (df : DataFrame) :
  column_values df "Объем воды (л)" = inr (present (map volume df)).
Proof.
  unfold column_values.
  change (getitem df "Объем воды (л)") with (ret (Float64 (map volume df))).
  cbn [bind ret dropna select_series notna]. now rewrite present_select.
Qed.

(** The labels are the series without its first [lag] values. *)
Lemma lag_labels (data : list Q) (lag : nat) :
  snd (lag_features data lag) = skipn lag data.
Proof.
  apply nth_error_ext. intros i.
  destruct (Nat.lt_ge_cases i (List.length data - lag)) as [Hi | Hi].
  - destruct (lag_features_rows data lag i Hi) as [_ [_ [Hy _]]].
    rewrite Hy, nth_error_skipn. f_equal. lia.
  - rewrite (proj2 (nth_error_None _ _)), (proj2 (nth_error_None _ _));
      [reflexivity | rewrite length_skipn; lia |].
    rewrite (proj2 (lag_features_length data lag)). exact Hi.
Qed.

(** What the split has done when it returns. *)
Lemma train_test_split_returns {A B : Type} (X : list A) (y : list B)
  X_train X_test y_train y_test :
  List.length y = List.length X ->
  train_test_split X y = inr (X_train, X_test, y_train, y_test) ->
  let split := split_index (List.length X) in
  (0 < split)%nat /\
  X_train = firstn split X /\ X_test = skipn split X /\
  y_train = firstn split y /\ y_test = skipn split y /\
  List.length X_test = fifth_ceiling (List.length X) /\
  List.length y_test = fifth_ceiling (List.length X).
Proof.
  intros Hy. unfold train_test_split.
  change (Z.to_nat (Qceiling ((2 # 10) * inject_Z (Z.of_nat (List.length X)))))
    with (fifth_ceiling (List.length X)).
  rewrite <- (split_index_complement (List.length X)).
  pose proof (split_index_complement (List.length X)) as Hs.
  destruct (split_index (List.length X) =? 0)%nat eqn:E; [discriminate|].
  apply Nat.eqb_neq in E. intros H. cbv zeta.
  set (split := split_index (List.length X)) in *.
  rewrite (firstn_all2 (skipn split X)) in H by (rewrite length_skipn; lia).
  rewrite (firstn_all2 (skipn split y)) in H by (rewrite length_skipn; lia).
  injection H as <- <- <- <-.
  repeat split; try reflexivity; try lia.
  - rewrite length_skipn. lia.
  - rewrite length_skipn. lia.
Qed.

Section PlottedForecast.

Variable rng : Type.
Variable RandomState : Z -> rng.
Variable least_squares : matrix -> list Q -> result predictor.
Variable grow_tree : rng -> matrix -> list Q -> result predictor * rng.
Variable grow_forest : nat -> rng -> matrix -> list Q -> result predictor * rng.

(** What [open_forecast_plot] has done when it ends with a plot. *)
Lemma forecast_plotted model_name model lag df column g run :
  fst (open_forecast_plot rng RandomState least_squares grow_tree grow_forest
         model_name model lag df column g) = Plotted run ->
  let data := present (map volume df) in
  exists X_train X_test y_train y_test predict,
    column = "Объем воды (л)" /\
    (2 * lag <= List.length data)%nat /\
    train_test_split (fst (lag_features data lag)) (snd (lag_features data lag))
      = inr (X_train, X_test, y_train, y_test) /\
    fst (fit rng RandomState least_squares grow_tree grow_forest
           model X_train y_train g) = inr predict /\
    run = {| run_model_name := model_name;
             run_column := column;
             run_lag := lag;
             run_y_test := y_test;
             run_y_pred := map predict X_test;
             run_mae := mean_absolute_error y_test (map predict X_test);
             run_rmse := fsqrt (of_Q (mean_squared_error y_test (map predict X_test)));
             run_r2 := r2_score y_test (map predict X_test) |}.
Proof.
  unfold open_forecast_plot.
  destruct (validate_numeric_column df column _) as [msg |] eqn:V; [discriminate|].
  apply validate_numeric_column_ok in V as [-> _].
  rewrite column_values_volume.
  destruct (List.length (present (map volume df)) <? lag * 2)%nat eqn:L; [discriminate|].
  apply Nat.ltb_ge in L.
  destruct (lag_features (present (map volume df)) lag) as [X y] eqn:F.
  destruct (train_test_split X y) as [e | [[[X_train X_test] y_train] y_test]] eqn:S;
    [discriminate|].
  destruct (fit _ _ _ _ _ _ _ _ _) as [[e | predict] g'] eqn:Fit; [discriminate|].
  cbn [fst]. intros H. injection H as <-. cbv zeta.
  exists X_train, X_test, y_train, y_test, predict.
  split; [reflexivity|]. split; [lia|].
  try rewrite F. cbn [fst snd]. split; [exact S|].
  rewrite Fit. split; reflexivity.
Qed.

End PlottedForecast.

(* ================================================================== *)
(** * Accuracy metrics *)
(* ================================================================== *)

Section MetricFacts.

Local Open Scope Q_scope.

Lemma qsum_nonneg (l : list Q) : (forall x, In x l -> 0 <= x) -> 0 <= qsum l.
Proof.
  induction l as [| x l IH]; intros H; simpl; [apply Qle_refl|].
  assert (Hx : 0 <= x) by (apply H; now left).
  assert (Hl : 0 <= qsum l) by (apply IH; intros y Hy; apply H; now right).
  Lqa.lra.
Qed.

Lemma qmean_nonneg (l : list Q) : (forall x, In x l -> 0 <= x) -> 0 <= qmean l.
Proof.
  intros H. unfold qmean. apply Qmult_le_0_compat; [apply qsum_nonneg; exact H|].
  apply Qinv_le_0_compat. unfold qlen. change 0 with (inject_Z 0).
  rewrite <- Zle_Qle. lia.
Qed.

Lemma squares_nonneg (l : list Q) (x : Q) :
  In x (map (fun d => d * d) l) -> 0 <= x.
Proof. intros H. apply in_map_iff in H as [d [<- _]]. Lqa.nra. Qed.

Lemma abs_values_nonneg (l : list Q) (x : Q) : In x (map Qabs l) -> 0 <= x.
Proof. intros H. apply in_map_iff in H as [d [<- _]]. apply Qabs_nonneg. Qed.

Lemma Qabs_square (x : Q) : Qabs x * Qabs x == x * x.
Proof.
  rewrite <- Qabs_Qmult. apply Qabs_pos. Lqa.nra.
Qed.

(** Twice the sum of the magnitudes times [a] stays below the sum of
    squares plus [n * a²]. *)
Lemma abs_sum_against_squares (l : list Q) (a : Q) :
  2 * qsum (map Qabs l) * a <= qsum (map (fun d => d * d) l) + qlen l * a * a.
Proof.
  unfold qlen. induction l as [| x l IH]; simpl.
  - change (inject_Z 0) with 0. Lqa.lra.
  - replace (Z.pos (Pos.of_succ_nat (List.length l)))
      with (Z.of_nat (List.length l) + 1)%Z by lia.
    rewrite inject_Z_plus. change (inject_Z 1) with 1.
    pose proof (Qabs_square x) as Hsq.
    set (u := Qabs x) in *. set (S := qsum (map Qabs l)) in *.
    set (T := qsum (map (fun d => d * d) l)) in *.
    set (n := inject_Z (Z.of_nat (List.length l))) in *.
    clearbody u S T n.
    assert (Hu : 0 <= (u - a) * (u - a)) by (generalize (u - a); intros w; Lqa.nra).
    Lqa.nra.
Qed.

(** The square of the sum of magnitudes is at most [n] times the sum of
    squares. *)
Lemma abs_sum_squared (l : list Q) :
  qsum (map Qabs l) * qsum (map Qabs l) <= qlen l * qsum (map (fun d => d * d) l).
Proof.
  induction l as [| x l IH].
  - unfold qlen. simpl. change (inject_Z 0) with 0. Lqa.lra.
  - pose proof (abs_sum_against_squares l (Qabs x)) as H.
    pose proof (Qabs_square x) as Hsq.
    unfold qlen in *. simpl.
    replace (Z.pos (Pos.of_succ_nat (List.length l)))
      with (Z.of_nat (List.length l) + 1)%Z by lia.
    rewrite inject_Z_plus. change (inject_Z 1) with 1.
    rewrite <- Hsq.
    set (u := Qabs x) in *. set (S := qsum (map Qabs l)) in *.
    set (T := qsum (map (fun d => d * d) l)) in *.
    set (n := inject_Z (Z.of_nat (List.length l))) in *.
    clearbody u S T n. Lqa.nra.
Qed.

(** The squared mean magnitude is at most the mean square. *)
Lemma mean_abs_squared (l : list Q) :
  qmean (map Qabs l) * qmean (map Qabs l) <= qmean (map (fun d => d * d) l).
Proof.
  destruct l as [| x l]; [vm_compute; discriminate|].
  assert (Hn : 0 < qlen (x :: l)) by (apply qlen_pos; discriminate).
  pose proof (abs_sum_squared (x :: l)) as H.
  unfold qmean.
  assert (L1 : qlen (map Qabs (x :: l)) = qlen (x :: l))
    by (unfold qlen; now rewrite length_map).
  assert (L2 : qlen (map (fun d => d * d) (x :: l)) = qlen (x :: l))
    by (unfold qlen; now rewrite length_map).
  rewrite L1, L2.
  set (S := qsum (map Qabs (x :: l))) in *.
  set (T := qsum (map (fun d => d * d) (x :: l))) in *.
  set (n := qlen (x :: l)) in *. clearbody S T n.
  apply Qle_shift_div_l; [exact Hn|].
  assert (E : S / n * (S / n) * n == S * S / n)
    by (field; intros Z; rewrite Z in Hn; discriminate Hn).
  rewrite E. apply Qle_shift_div_r; [exact Hn|]. Lqa.lra.
Qed.

End MetricFacts.

(** The mean absolute error is non-negative and never above the root of
    the mean squared error. *)
Lemma mae_below_rmse (y_true y_pred : list Q) :
  (0 <= mean_absolute_error y_true y_pred)%Q /\
  exists x,
    fsqrt (of_Q (mean_squared_error y_true y_pred)) = Fin x /\
    (Q2R (mean_absolute_error y_true y_pred) <= x)%R.
Proof.
  unfold mean_absolute_error, mean_squared_error.
  set (r := residuals y_true y_pred).
  assert (Hmae : (0 <= qmean (map Qabs r))%Q)
    by (apply qmean_nonneg; apply abs_values_nonneg).
  assert (Hmse : (0 <= qmean (map (fun d => d * d) r))%Q)
    by (apply qmean_nonneg; apply squares_nonneg).
  split; [exact Hmae|].
  apply Qle_Rle in Hmae, Hmse. rewrite RMicromega.Q2R_0 in Hmae, Hmse.
  exists (sqrt (Q2R (qmean (map (fun d => d * d)%Q r)))).
  split; [apply fsqrt_Fin; exact Hmse|].
  pose proof (Qle_Rle _ _ (mean_abs_squared r)) as Hsq. rewrite Q2R_mult in Hsq.
  apply Rsqr_incr_0; [| exact Hmae | apply sqrt_pos].
  rewrite Rsqr_sqrt by exact Hmse. unfold Rsqr. exact Hsq.
Qed.

Lemma ss_res_nonneg (y_true y_pred : list Q) : (0 <= ss_res y_true y_pred)%Q.
Proof. unfold ss_res. apply qsum_nonneg. apply squares_nonneg. Qed.

Lemma ss_tot_nonneg (y_true : list Q) : (0 <= ss_tot y_true)%Q.
Proof.
  unfold ss_tot. apply qsum_nonneg. intros x H.
  apply in_map_iff in H as [v [<- _]].
  generalize (v - qmean y_true)%Q. intros w. Lqa.nra.
Qed.

(** R² is NaN exactly below two predictions, and otherwise at most 1. *)
Lemma r2_score_range (y_true y_pred : list Q) :
  (r2_score y_true y_pred = NaN <-> (List.length y_pred < 2)%nat) /\
  (r2_score y_true y_pred = NaN \/
   exists x, r2_score y_true y_pred = Fin x /\ (x <= 1)%R).
Proof.
  unfold r2_score. destruct (Nat.ltb_spec (List.length y_pred) 2) as [L | G].
  - split; [split; [intros _; exact L | reflexivity] | now left].
  - pose proof (ss_res_nonneg y_true y_pred) as Hres.
    pose proof (ss_tot_nonneg y_true) as Htot.
    destruct (Qeq_bool (ss_tot y_true) 0) eqn:Z.
    + destruct (Qeq_bool (ss_res y_true y_pred) 0).
      * split; [split; [discriminate | lia]|].
        right. exists 1%R. split; [reflexivity | lra].
      * split; [split; [discriminate | lia]|].
        right. exists 0%R. split; [reflexivity | lra].
    + split; [split; [discriminate | lia]|]. right.
      eexists. split; [reflexivity|].
      apply Qeq_bool_neq in Z.
      assert (Hpos : (0 < ss_tot y_true)%Q).
      { apply Qle_lteq in Htot as [P | E]; [exact P|].
        exfalso. apply Z. symmetry. exact E. }
      assert (Hq : (0 <= ss_res y_true y_pred / ss_tot y_true)%Q).
      { apply Qle_shift_div_l; [exact Hpos|]. rewrite Qmult_0_l. exact Hres. }
      replace 1%R with (Q2R 1) by (unfold Q2R; simpl; lra).
      apply Qle_Rle. Lqa.lra.
Qed.

Lemma train_test_split_succeeds {A B : Type} (X : list A) (y : list B) :
  (2 <= List.length X)%nat ->
  List.length y = List.length X ->
  train_test_split X y
  = inr (firstn (split_index (List.length X)) X, skipn (split_index (List.length X)) X,
         firstn (split_index (List.length X)) y, skipn (split_index (List.length X)) y).
Proof.
  intros Hn Hy.
  pose proof (fifth_ceiling_bounds _ Hn) as Hb.
  pose proof (split_index_complement (List.length X)) as Hs.
  unfold train_test_split.
  change (Z.to_nat (Qceiling ((2 # 10) * inject_Z (Z.of_nat (List.length X)))))
    with (fifth_ceiling (List.length X)).
  rewrite <- Hs.
  replace (split_index (List.length X) =? 0)%nat with false
    by (symmetry; apply Nat.eqb_neq; lia).
  rewrite (firstn_all2 (skipn _ X)) by (rewrite length_skipn; lia).
  rewrite (firstn_all2 (skipn _ y)) by (rewrite length_skipn; lia).
  reflexivity.
Qed.

Section ForecastContents.

Variable rng : Type.
Variable RandomState : Z -> rng.
Variable least_squares : matrix -> list Q -> result predictor.
Variable grow_tree : rng -> matrix -> list Q -> result predictor * rng.
Variable grow_forest : nat -> rng -> matrix -> list Q -> result predictor * rng.

Lemma forecast_plotted_shape model_name model lag df column g run :
  fst (open_forecast_plot rng RandomState least_squares grow_tree grow_forest
         model_name model lag df column g) = Plotted run ->
  let data := present (map volume df) in
  let n := (List.length data - lag)%nat in
  column = "Объем воды (л)" /\
  run_column run = column /\ run_lag run = lag /\
  (2 * lag <= List.length data)%nat /\
  run_y_test run = skipn (List.length data - fifth_ceiling n) data /\
  List.length (run_y_test run) = fifth_ceiling n /\
  List.length (run_y_pred run) = List.length (run_y_test run).
Proof.
  intros H. destruct (forecast_plotted _ _ _ _ _ _ _ _ _ _ _ _ H)
    as [X_train [X_test [y_train [y_test [predict [Hc [Hlen [Hs [_ ->]]]]]]]]].
  cbv zeta. cbn [run_column run_lag run_y_test run_y_pred].
  destruct (lag_features_length (present (map volume df)) lag) as [LX Ly].
  apply train_test_split_returns in Hs; [| congruence].
  cbv zeta in Hs. rewrite LX in Hs.
  destruct Hs as [Hpos [_ [HXt [_ [Hyt [HlX Hly]]]]]].
  pose proof (split_index_complement (List.length (present (map volume df)) - lag)) as Hsp.
  split; [exact Hc|]. split; [reflexivity|]. split; [reflexivity|].
  split; [exact Hlen|]. split.
  - rewrite Hyt, lag_labels, skipn_skipn. f_equal. lia.
  - split; [exact Hly|]. rewrite length_map. congruence.
Qed.

(** X11.  A plotted forecast is about the numeric column, which has at
    least [2 * lag] values; its test values are the last
    [ceil(0.2 * (len - lag))] values of the series, in their order, and it
    carries one prediction per test value. *)
Theorem forecast_test_values model_name model lag df column g run :
  fst (open_forecast_plot rng RandomState least_squares grow_tree grow_forest
         model_name model lag df column g) = Plotted run ->
  let data := present (map volume df) in
  let n := (List.length data - lag)%nat in
  column = "Объем воды (л)" /\
  run_column run = column /\ run_lag run = lag /\
  (2 * lag <= List.length data)%nat /\
  run_y_test run = skipn (List.length data - fifth_ceiling n) data /\
  List.length (run_y_test run) = fifth_ceiling n /\
  List.length (run_y_pred run) = List.length (run_y_test run).
Proof. exact (forecast_plotted_shape model_name model lag df column g run). Qed.


End ForecastContents.

Section ForecastButtons.

Variable rng : Type.
Variable RandomState : Z -> rng.
Variable least_squares : matrix -> list Q -> result predictor.
Variable grow_tree : rng -> matrix -> list Q -> result predictor * rng.
Variable grow_forest : nat -> rng -> matrix -> list Q -> result predictor * rng.

Lemma forecast_lag_seven model_name model df column g :
  validate_numeric_column df column "прогнозирования" = None ->
  (14 <= List.length (present (map volume df)))%nat ->
  plotted_or_learner_failed
    (fst (open_forecast_plot rng RandomState least_squares grow_tree grow_forest
            model_name model 7 df column g)).
Proof.
  intros V Hlen. unfold open_forecast_plot. rewrite V.
  apply validate_numeric_column_ok in V as [-> _].
  rewrite column_values_volume.
  replace (List.length (present (map volume df)) <? 7 * 2)%nat with false
    by (symmetry; apply Nat.ltb_ge; lia).
  destruct (lag_features_length (present (map volume df)) 7) as [LX Ly].
  destruct (lag_features (present (map volume df)) 7) as [X y].
  cbn [fst snd] in LX, Ly.
  rewrite (train_test_split_succeeds X y) by lia.
  destruct (fit _ _ _ _ _ _ _ _ _) as [[e | predict] g']; cbn [fst].
  - exists e. reflexivity.
  - cbn [plotted_or_learner_failed run_y_test run_y_pred run_r2].
    pose proof (split_index_complement (List.length X)) as Hs.
    pose proof (fifth_ceiling_div (List.length X)) as Hc.
    assert (H2 : (2 <= (List.length X + 4) / 5)%nat)
      by (apply Nat.div_le_lower_bound; lia).
    assert (Hup : (fifth_ceiling (List.length X) < List.length X)%nat)
      by (apply fifth_ceiling_bounds; lia).
    assert (Lt : List.length (skipn (split_index (List.length X)) y)
                 = fifth_ceiling (List.length X))
      by (rewrite length_skipn; lia).
    assert (Lp : List.length (map predict (skipn (split_index (List.length X)) X))
                 = fifth_ceiling (List.length X))
      by (rewrite length_map, length_skipn; lia).
    split; [lia|]. split; [congruence|].
    intros N. apply r2_score_range in N. lia.
Qed.


End ForecastButtons.

Lemma scenario_D_plotted :
  exists run,
    fst (open_forecast_plot unit (fun _ => tt) naive_least_squares naive_tree
           naive_forest "Линейная регрессия" LinearRegression 7
           (frame_of series_D) "Объем воды (л)" tt) = Plotted run.
Proof. eexists. reflexivity. Qed.

Lemma forecast_test_values_witness :
  exists run,
    fst (open_forecast_plot unit (fun _ => tt) naive_least_squares naive_tree
           naive_forest "Линейная регрессия" LinearRegression 7
           (frame_of series_D) "Объем воды (л)" tt) = Plotted run /\
    run_y_test run = skipn 12 series_D /\
    List.length (run_y_pred run) = List.length (run_y_test run).
Proof.
  destruct scenario_D_plotted as [run H]. exists run. split; [exact H|].
  destruct (forecast_test_values unit (fun _ => tt) naive_least_squares naive_tree
              naive_forest _ _ _ _ _ _ _ H) as [_ [_ [_ [_ [Ht [_ Hp]]]]]].
  split; [exact Ht | exact Hp].
Defined.



(* ================================================================== *)
(** * Filling the gaps of the numeric column *)
(* ================================================================== *)

Lemma fillna_length (cells : list (option Q)) (value : option Q) :
  List.length (fillna cells value) = List.length cells.
Proof. unfold fillna. apply length_map. Qed.

Lemma fillna_none (cells : list (option Q)) : fillna cells None = cells.
Proof.
  unfold fillna. induction cells as [| [x |] cells IH]; simpl; now rewrite ?IH.
Qed.

Lemma fillna_all_present (cells : list (option Q)) (m : Q) :
  Forall (fun cell => is_some cell = true) (fillna cells (Some m)).
Proof.
  unfold fillna. induction cells as [| [x |] cells IH]; simpl; constructor; auto.
Qed.

Lemma fillna_nth (cells : list (option Q)) (m : Q) (i : nat) :
  nth_error (fillna cells (Some m)) i
  = match nth_error cells i with
    | Some (Some x) => Some (Some x)
    | Some None => Some (Some m)
    | None => None
    end.
Proof.
  unfold fillna. rewrite nth_error_map.
  destruct (nth_error cells i) as [[x |] |]; reflexivity.
Qed.

Lemma fillna_present_length (cells : list (option Q)) (m : Q) :
  List.length (present (fillna cells (Some m))) = List.length cells.
Proof.
  unfold fillna. induction cells as [| [x |] cells IH]; simpl; now rewrite ?IH.
Qed.

Lemma fillna_sum (cells : list (option Q)) (m : Q) :
  (qsum (present (fillna cells (Some m)))
   == qsum (present cells)
      + (inject_Z (Z.of_nat (List.length cells)) - qlen (present cells)) * m)%Q.
Proof.
  unfold fillna, qlen. induction cells as [| [x |] cells IH].
  - simpl. change (inject_Z 0) with 0%Q. ring.
  - cbn [map present qsum fold_right List.length] in *. fold (qsum (present cells)).
    fold (qsum (present (map (fun c => match c with Some x => Some x | None => Some m end)
                           cells))).
    rewrite IH.
    replace (Z.of_nat (S (List.length cells))) with (Z.of_nat (List.length cells) + 1)%Z
      by lia.
    replace (Z.of_nat (S (List.length (present cells))))
      with (Z.of_nat (List.length (present cells)) + 1)%Z by lia.
    rewrite !inject_Z_plus. change (inject_Z 1) with 1%Q. ring.
  - cbn [map present qsum fold_right List.length] in *. fold (qsum (present cells)).
    fold (qsum (present (map (fun c => match c with Some x => Some x | None => Some m end)
                           cells))).
    rewrite IH.
    replace (Z.of_nat (S (List.length cells))) with (Z.of_nat (List.length cells) + 1)%Z
      by lia.
    rewrite !inject_Z_plus. change (inject_Z 1) with 1%Q. ring.
Qed.

Lemma present_length_le (cells : list (option Q)) :
  (List.length (present cells) <= List.length cells)%nat.
Proof. induction cells as [| [x |] cells IH]; simpl; lia. Qed.

(** Filling the gaps with the mean leaves the mean as it was. *)
Lemma fillna_mean_preserved (cells : list (option Q)) :
  present cells <> [] ->
  (qmean (present (fillna cells (Some (qmean (present cells)))))
   == qmean (present cells))%Q.
Proof.
  intros Hne. pose proof (qlen_pos _ Hne) as Hn.
  pose proof (present_length_le cells) as Hle.
  unfold qmean at 1. rewrite fillna_sum.
  unfold qlen at 2. rewrite fillna_present_length.
  assert (HN : (0 < inject_Z (Z.of_nat (List.length cells)))%Q).
  { change 0%Q with (inject_Z 0). rewrite <- Zlt_Qlt.
    destruct (present cells) eqn:E; [now contradiction Hne | simpl in Hle; lia]. }
  unfold qmean.
  set (S := qsum (present cells)) in *. set (n := qlen (present cells)) in *.
  set (N := inject_Z (Z.of_nat (List.length cells))) in *. clearbody S n N.
  field. split; intros Z; [rewrite Z in Hn; discriminate Hn | rewrite Z in HN; discriminate HN].
Qed.

Section LoaderFacts.

Variable parse_float : string -> option Q.


End LoaderFacts.


(* ================================================================== *)
(** * The calculate button *)
(* ================================================================== *)

Lemma perform_calculation_silent df single col1 col2 st :
  snd (perform_calculation df single col1 col2 st) = App.Silent <->
  exists stats, calculate_statistics df single = inr stats.
Proof.
  unfold perform_calculation.
  destruct ((single =? "Активность") || (single =? "Время")) eqn:E.
  - cbn [snd]. split; [discriminate|]. intros [stats H].
    apply calculate_statistics_inv in H as [-> _]. discriminate E.
  - destruct (calculate_statistics df single) as [e | stats]; cbn [snd].
    + split; [discriminate | intros [stats H]; discriminate H].
    + split; [intros _; now exists stats | reflexivity].
Qed.

(** X15.  The calculate button always records the three selections.  It
    ends without a message exactly when the statistics of the selected
    column can be computed, and then it stores those statistics together
    with the correlation of the two other selections; in every other case
    both stored results stay as they were. *)
Theorem perform_calculation_effect (df : DataFrame) (single col1 col2 : string)
  (st : App.state) :
  let st' := fst (perform_calculation df single col1 col2 st) in
  let shown := snd (perform_calculation df single col1 col2 st) in
  App.single_col st' = Some single /\
  App.corr_col1 st' = Some col1 /\
  App.corr_col2 st' = Some col2 /\
  (shown = App.Silent <-> exists stats, calculate_statistics df single = inr stats) /\
  (shown = App.Silent ->
     exists stats,
       calculate_statistics df single = inr stats /\
       App.stats_result st' = Some stats /\
       App.corr_result st' = Some (calculate_correlation df col1 col2)) /\
  (shown <> App.Silent ->
     App.stats_result st' = App.stats_result st /\
     App.corr_result st' = App.corr_result st).
Proof.
  cbv zeta. split; [| split; [| split; [| split; [| split]]]].
  - unfold perform_calculation.
    destruct ((single =? "Активность") || (single =? "Время")); [reflexivity|].
    destruct (calculate_statistics df single); reflexivity.
  - unfold perform_calculation.
    destruct ((single =? "Активность") || (single =? "Время")); [reflexivity|].
    destruct (calculate_statistics df single); reflexivity.
  - unfold perform_calculation.
    destruct ((single =? "Активность") || (single =? "Время")); [reflexivity|].
    destruct (calculate_statistics df single); reflexivity.
  - apply perform_calculation_silent.
  - unfold perform_calculation.
    destruct ((single =? "Активность") || (single =? "Время")); [discriminate|].
    destruct (calculate_statistics df single) as [e | stats]; [discriminate|].
    intros _. exists stats. repeat split.
  - unfold perform_calculation.
    destruct ((single =? "Активность") || (single =? "Время")); [now split|].
    destruct (calculate_statistics df single) as [e | stats]; [now split|].
    intros H. now contradiction H.
Qed.

Lemma perform_calculation_effect_witness :
  snd (perform_calculation scenario_A "Время" "Объем воды (л)" "Время" fresh_state)
  <> App.Silent /\
  App.single_col
    (fst (perform_calculation scenario_A "Время" "Объем воды (л)" "Время" fresh_state))
  = Some "Время" /\
  App.stats_result
    (fst (perform_calculation scenario_A "Время" "Объем воды (л)" "Время" fresh_state))
  = None.
Proof.
  assert (N : snd (perform_calculation scenario_A "Время" "Объем воды (л)" "Время"
                     fresh_state) <> App.Silent) by discriminate.
  destruct (perform_calculation_effect scenario_A "Время" "Объем воды (л)" "Время"
              fresh_state) as [Hs [_ [_ [_ [_ Kept]]]]].
  split; [exact N|]. split; [exact Hs|].
  exact (proj1 (Kept N)).
Defined.

(* ================================================================== *)
(** * The box plot with IQR whiskers *)
(* ================================================================== *)

Lemma Qlt_bool_iff (x y : Q) : Qlt_bool x y = true <-> x < y.
Proof.
  unfold Qlt_bool. rewrite negb_true_iff. split.
  - intros H. apply Qnot_le_lt. intros K. apply Qle_bool_iff in K. congruence.
  - intros H. destruct (Qle_bool y x) eqn:E; [| reflexivity].
    apply Qle_bool_iff in E. exfalso. exact (Qlt_not_le _ _ H E).
Qed.

(** X16.  The box plot button warns exactly when the statistics of the
    selected column cannot be computed; otherwise it draws, never showing
    an error.  The quartiles, median, mean and the two bounds drawn are
    those of the statistics summary; the points marked as outliers are
    exactly the values of the column strictly outside the bounds, and no
    value from the first to the third quartile is marked. *)
Theorem boxplot_iqr_outcome (df : DataFrame) (column : string) :
  (exists msg,
     open_boxplot_iqr df column = PlotWarning msg /\
     forall s, calculate_statistics df column <> inr s)
  \/ (exists box s,
        open_boxplot_iqr df column = PlotWindow (Drawn box) /\
        calculate_statistics df column = inr s /\
        box_q1 box = stat_q1 s /\
        box_q3 box = stat_q3 s /\
        box_iqr box = stat_iqr s /\
        box_median box = stat_median s /\
        box_mean box = stat_mean s /\
        box_lower_bound box = stat_outlier_lower s /\
        box_upper_bound box = stat_outlier_upper s /\
        box_q1 box <= box_median box <= box_q3 box /\
        (forall x, In x (box_outliers box) <->
                   In x (present (map volume df)) /\
                   (x < box_lower_bound box \/ box_upper_bound box < x)) /\
        (forall x, box_q1 box <= x <= box_q3 box -> ~ In x (box_outliers box))).
Proof.
  unfold open_boxplot_iqr.
  destruct (validate_numeric_column df column "построения Box Plot (IQR)")
    as [msg |] eqn:V.
  - left. exists msg. split; [reflexivity|]. intros s H.
    assert (K : validate_numeric_column df column "построения Box Plot (IQR)" = None).
    { apply validate_numeric_column_ok. apply calculate_statistics_ok. now exists s. }
    congruence.
  - right. apply validate_numeric_column_ok in V as [-> Hd].
    unfold plot_boxplot_iqr. rewrite column_values_volume.
    cbn [bind ret plot_data]. cbv zeta.
    eexists. exists (summarize (present (map volume df))).
    split; [reflexivity|].
    split.
    { rewrite calculate_statistics_volume.
      destruct (present (map volume df)); [now contradiction Hd | reflexivity]. }
    cbn [box_q1 box_q3 box_iqr box_median box_mean box_lower_bound box_upper_bound
         box_outliers].
    pose proof (summarize_order _ Hd) as Ord. cbv zeta in Ord.
    cbv [summarize stat_min stat_q1 stat_q2 stat_q3 stat_max stat_median stat_iqr
         stat_outlier_lower stat_outlier_upper stat_mean] in Ord |- *.
    destruct Ord as [_ [H12 [H23 [_ [Hm [Hiqr [Hlo Hup]]]]]]].
    repeat (split; [reflexivity|]).
    split; [split; Lqa.lra|].
    split.
    + intros x. rewrite filter_In, orb_true_iff, !Qlt_bool_iff. reflexivity.
    + intros x [Hx1 Hx3]. rewrite filter_In, orb_true_iff, !Qlt_bool_iff.
      intros [_ [K | K]]; Lqa.lra.
Qed.

Lemma boxplot_iqr_outcome_witness :
  exists box,
    open_boxplot_iqr scenario_A "Объем воды (л)" = PlotWindow (Drawn box) /\
    ~ In (box_q1 box) (box_outliers box).
Proof.
  destruct (boxplot_iqr_outcome scenario_A "Объем воды (л)")
    as [[msg [H _]] | [box [s [H [_ [_ [_ [_ [_ [_ [_ [_ [Hq [_ Hin]]]]]]]]]]]]]].
  - discriminate H.
  - exists box. split; [exact H|]. apply Hin. split; [apply Qle_refl|].
    eapply Qle_trans; [exact (proj1 Hq) | exact (proj2 Hq)].
Defined.

(* ================================================================== *)
(** * The number of histogram bins *)
(* ================================================================== *)

Section BinFacts.

Local Open Scope R_scope.

Lemma Int_part_floor (r : R) (k : Z) :
  Int_part r = k -> IZR k <= r < IZR k + 1.
Proof.
  intros <-. destruct (base_Int_part r) as [H1 H2]. split; lra.
Qed.

Lemma Int_part_ge (r : R) (k : Z) : IZR k <= r -> (k <= Int_part r)%Z.
Proof.
  intros H. destruct (base_Int_part r) as [_ H2].
  assert (K : IZR k < IZR (Int_part r + 1)) by (rewrite plus_IZR; lra).
  apply lt_IZR in K. lia.
Qed.

Lemma Int_part_le (r : R) (k : Z) : r < IZR (k + 1) -> (Int_part r <= k)%Z.
Proof.
  intros H. destruct (base_Int_part r) as [H1 _].
  assert (K : IZR (Int_part r) < IZR (k + 1)) by lra.
  apply lt_IZR in K. lia.
Qed.

(** The integer part of a square root is the integer square root. *)
Lemma Int_part_sqrt (n : nat) :
  let k := Int_part (sqrt (INR n)) in
  (0 <= k /\ k * k <= Z.of_nat n < (k + 1) * (k + 1))%Z.
Proof.
  cbv zeta.
  pose proof (pos_INR n) as Hn.
  pose proof (sqrt_pos (INR n)) as Hs.
  pose proof (sqrt_sqrt (INR n) Hn) as Hsq.
  destruct (Int_part_floor (sqrt (INR n)) _ eq_refl) as [H1 H2].
  set (k := Int_part (sqrt (INR n))) in *.
  set (s := sqrt (INR n)) in *.
  assert (K0 : (0 <= k)%Z).
  { assert (K : IZR (-1) < IZR k) by lra. apply lt_IZR in K. lia. }
  assert (Kr : 0 <= IZR k) by (apply IZR_le in K0; exact K0).
  rewrite INR_IZR_INZ in Hsq.
  split; [exact K0|]. split.
  - apply le_IZR. rewrite mult_IZR. nra.
  - apply lt_IZR. rewrite mult_IZR, plus_IZR. nra.
Qed.

Lemma ln_10_lower : 1 <= ln 10.
Proof.
  rewrite <- (ln_exp 1) at 1.
  pose proof exp_le_3 as H3. pose proof (exp_pos 1) as Hp.
  destruct (Rle_lt_or_eq_dec _ _ H3) as [Lt | Eq].
  - left. apply Rlt_trans with (ln 3).
    + apply ln_increasing; assumption.
    + apply ln_increasing; lra.
  - rewrite Eq. left. apply ln_increasing; lra.
Qed.

Lemma ln_below_sqrt (x : R) : 1 < x -> ln x < 2 * sqrt x.
Proof.
  intros Hx.
  assert (Hs : 0 < sqrt x) by (apply sqrt_lt_R0; lra).
  assert (E : x = sqrt x * sqrt x) by (symmetry; apply sqrt_sqrt; lra).
  rewrite E at 1. rewrite ln_mult by assumption.
  assert (K : ln (sqrt x) < sqrt x).
  { rewrite <- (ln_exp (sqrt x)) at 2. apply ln_increasing; [exact Hs|].
    pose proof (exp_ineq1 (sqrt x)) as I. assert (sqrt x <> 0) by lra.
    specialize (I H). lra. }
  lra.
Qed.

(** The decimal logarithm of a count above one hundred. *)
Lemma log10_bounds (n : nat) :
  (100 < n)%nat ->
  2 < ln (INR n) / ln 10 /\ 1 + 3.322 * (ln (INR n) / ln 10) < INR n.
Proof.
  intros Hn.
  assert (Hr : 100 < INR n).
  { replace 100 with (INR 100) by (simpl; lra). apply lt_INR. exact Hn. }
  pose proof ln_10_lower as L10.
  assert (L100 : ln 100 = 2 * ln 10).
  { replace 100 with (10 * 10) by lra. rewrite ln_mult by lra. lra. }
  assert (Ln : ln 100 < ln (INR n)) by (apply ln_increasing; lra).
  split.
  - apply Rmult_lt_reg_r with (ln 10); [lra|].
    unfold Rdiv. rewrite Rmult_assoc, Rinv_l by lra. lra.
  - assert (Hs : ln (INR n) < 2 * sqrt (INR n)) by (apply ln_below_sqrt; lra).
    assert (Hq : sqrt (INR n) * sqrt (INR n) = INR n) by (apply sqrt_sqrt; lra).
    assert (Hs10 : 10 < sqrt (INR n)).
    { replace 10 with (sqrt 100).
      - apply sqrt_lt_1_alt. lra.
      - replace 100 with (10 * 10) by lra. apply sqrt_square. lra. }
    assert (D : ln (INR n) / ln 10 <= ln (INR n)).
    { apply Rmult_le_reg_r with (ln 10); [lra|].
      unfold Rdiv. rewrite Rmult_assoc, Rinv_l by lra. nra. }
    nra.
Qed.

End BinFacts.

(** X17.  The number of histogram bins is zero only for an empty sample
    and never exceeds the number of values.  Up to 100 values there are
    at most 10 bins; from 31 to 100 values the number is the integer
    square root of the count, so at least 5; above 100 values there are
    at least 7.  A sample of 10 to 30 values gets more bins than any
    sample of 31 to 99 values. *)
Theorem calculate_optimal_bins_bounds (n : nat) :
  (calculate_optimal_bins n = 0 <-> n = 0%nat)%Z /\
  (0 <= calculate_optimal_bins n <= Z.of_nat n)%Z /\
  ((n <= 100)%nat -> (calculate_optimal_bins n <= 10)%Z) /\
  ((30 < n <= 100)%nat ->
     (5 <= calculate_optimal_bins n /\
      calculate_optimal_bins n * calculate_optimal_bins n <= Z.of_nat n
      < (calculate_optimal_bins n + 1) * (calculate_optimal_bins n + 1))%Z) /\
  ((100 < n)%nat -> (7 <= calculate_optimal_bins n)%Z) /\
  (forall m, (10 <= m <= 30)%nat -> (30 < n < 100)%nat ->
             (calculate_optimal_bins n < calculate_optimal_bins m)%Z).
Proof.
  unfold calculate_optimal_bins.
  destruct (Nat.leb_spec n 30) as [H30 | H30].
  { repeat split; lia. }
  destruct (Nat.leb_spec n 100) as [H100 | H100].
  - pose proof (Int_part_sqrt n) as S. cbv zeta in S.
    set (k := Int_part (sqrt (INR n))) in *.
    repeat split; try nia.
    intros m Hm Hn.
    destruct (Nat.leb_spec m 30) as [_ | K]; [| lia].
    replace (Nat.min 10 m) with 10%nat by lia. nia.
  - destruct (log10_bounds n H100) as [L2 Ln].
    assert (Low : (7 <= Int_part (1 + 3.322 * (ln (INR n) / ln 10)))%Z).
    { apply Int_part_ge. lra. }
    assert (Up : (Int_part (1 + 3.322 * (ln (INR n) / ln 10)) <= Z.of_nat n)%Z).
    { apply Int_part_le. rewrite plus_IZR, <- INR_IZR_INZ. lra. }
    repeat split; try lia.
Qed.

Lemma calculate_optimal_bins_bounds_witness : calculate_optimal_bins 64 = 8%Z.
Proof.
  destruct (calculate_optimal_bins_bounds 64) as [_ [_ [_ [Root _]]]].
  assert (Range : (30 < 64 <= 100)%nat) by lia.
  destruct (Root Range) as [Low [Below Above]].
  change (Z.of_nat 64) with 64%Z in Below, Above.
  nia.
Defined.

(* ================================================================== *)
(** * The text windows after a series of calculations *)
(* ================================================================== *)

Lemma calculate_all_app df (l l' : list (string * string * string)) st :
  calculate_all df (l ++ l') st = calculate_all df l' (calculate_all df l st).
Proof.
  revert st. induction l as [| [[single col1] col2] l IH]; intros st.
  - reflexivity.
  - cbn [app calculate_all]. apply IH.
Qed.

(** The stored results after a series of presses from a fresh window. *)
Lemma calculate_all_results df (l : list (string * string * string)) :
  (App.stats_result (calculate_all df l fresh_state) = None /\
   App.corr_result (calculate_all df l fresh_state) = None /\
   forall single col1 col2, In (single, col1, col2) l ->
     forall stats, calculate_statistics df single <> inr stats)
  \/ (exists stats col1 col2,
        App.stats_result (calculate_all df l fresh_state) = Some stats /\
        App.corr_result (calculate_all df l fresh_state)
        = Some (calculate_correlation df col1 col2) /\
        calculate_statistics df "Объем воды (л)" = inr stats /\
        In ("Объем воды (л)", col1, col2) l).
Proof.
  induction l as [| [[single col1] col2] l IH] using rev_ind.
  - left. repeat split. intros ? ? ? [].
  - rewrite calculate_all_app. cbn [calculate_all].
    set (st := calculate_all df l fresh_state) in *.
    unfold perform_calculation.
    destruct ((single =? "Активность") || (single =? "Время")) eqn:Sel.
    + cbn [fst App.stats_result App.corr_result].
      destruct IH as [[H1 [H2 H3]] | [stats [c1 [c2 [H1 [H2 [H3 H4]]]]]]].
      * left. split; [exact H1|]. split; [exact H2|].
        intros s a b Hin stats Hs. apply in_app_or in Hin as [Hin | [E | []]].
        -- exact (H3 s a b Hin stats Hs).
        -- injection E as <- <- <-.
           apply calculate_statistics_inv in Hs as [-> _]. discriminate Sel.
      * right. exists stats, c1, c2. repeat split; try assumption.
        apply in_or_app. now left.
    + destruct (calculate_statistics df single) as [e | stats] eqn:E.
      * cbn [fst App.stats_result App.corr_result].
        destruct IH as [[H1 [H2 H3]] | [stats [c1 [c2 [H1 [H2 [H3 H4]]]]]]].
        -- left. split; [exact H1|]. split; [exact H2|].
           intros s a b Hin stats Hs. apply in_app_or in Hin as [Hin | [K | []]].
           ++ exact (H3 s a b Hin stats Hs).
           ++ injection K as <- <- <-. congruence.
        -- right. exists stats, c1, c2. repeat split; try assumption.
           apply in_or_app. now left.
      * cbn [fst App.stats_result App.corr_result].
        right. exists stats, col1, col2.
        pose proof (calculate_statistics_inv _ _ _ E) as [-> _].
        repeat split; try assumption.
        apply in_or_app. right. now left.
Qed.

Lemma calculate_all_selection df (l : list (string * string * string)) single col1 col2 :
  App.single_col (calculate_all df (l ++ [(single, col1, col2)]) fresh_state) = Some single /\
  App.corr_col1 (calculate_all df (l ++ [(single, col1, col2)]) fresh_state) = Some col1 /\
  App.corr_col2 (calculate_all df (l ++ [(single, col1, col2)]) fresh_state) = Some col2.
Proof.
  rewrite calculate_all_app. cbn [calculate_all]. unfold perform_calculation.
  destruct ((single =? "Активность") || (single =? "Время")); [now repeat split|].
  destruct (calculate_statistics df single); now repeat split.
Qed.

(** X18.  After one or more presses of the calculate button in a fresh
    window, the two text buttons never fail for a missing attribute.
    Both warn that nothing is calculated exactly when no press selected a
    column with computable statistics.  Otherwise both open: the titles
    name the selections of the last press, while the statistics shown are
    those of the numeric column and the correlation shown is that of the
    pair of a press that selected the numeric column, so a title can name
    a column other than the one whose results are shown. *)
Theorem text_windows_after_calculations (df : DataFrame)
  (earlier : list (string * string * string)) (single col1 col2 : string) :
  let presses := (earlier ++ [(single, col1, col2)])%list in
  let st := calculate_all df presses fresh_state in
  (open_statistics_window st = TextWarning "Сначала выполните расчет данных" /\
   open_correlation_window st = TextWarning "Сначала выполните расчет данных" /\
   forall s a b, In (s, a, b) presses ->
     forall stats, calculate_statistics df s <> inr stats)
  \/ (exists stats a b,
        open_statistics_window st
        = TextWindow ("Статистический анализ: " ++ single) stats /\
        open_correlation_window st
        = TextWindow ("Корреляционный анализ: " ++ col1 ++ " vs " ++ col2)
            (calculate_correlation df a b) /\
        calculate_statistics df "Объем воды (л)" = inr stats /\
        In ("Объем воды (л)", a, b) presses).
Proof.
  cbv zeta.
  destruct (calculate_all_selection df earlier single col1 col2) as [S0 [S1 S2]].
  unfold open_statistics_window, open_correlation_window.
  rewrite S0, S1, S2.
  destruct (calculate_all_results df (earlier ++ [(single, col1, col2)])%list)
    as [[H1 [H2 H3]] | [stats [a [b [H1 [H2 [H3 H4]]]]]]].
  - left. rewrite H1, H2. repeat split. exact H3.
  - right. exists stats, a, b. rewrite H1, H2. repeat split; assumption.
Qed.

(** A press that selects the time column after a successful calculation
    leaves the statistics of the numeric column under a title that names
    the time column. *)
Lemma text_windows_after_calculations_witness :
  exists stats,
    open_statistics_window
      (calculate_all scenario_A
         [("Объем воды (л)", "Объем воды (л)", "Время");
          ("Время", "Объем воды (л)", "Время")] fresh_state)
    = TextWindow "Статистический анализ: Время" stats /\
    calculate_statistics scenario_A "Объем воды (л)" = inr stats.
Proof.
  destruct (text_windows_after_calculations scenario_A
              [("Объем воды (л)", "Объем воды (л)", "Время")]
              "Время" "Объем воды (л)" "Время")
    as [[_ [_ Never]] | [stats [a [b [Hs [_ [Hv _]]]]]]].
  - exfalso.
    destruct (proj2 (calculate_statistics_ok scenario_A "Объем воды (л)"))
      as [stats Hs]; [split; [reflexivity | discriminate]|].
    exact (Never "Объем воды (л)" "Объем воды (л)" "Время"
             (or_introl eq_refl) stats Hs).
  - exists stats. split; [exact Hs | exact Hv].
Defined.
